(** * MedUX core: fields, models and admin registrations (medux/core)

    A shallow embedding of [medux/core/fields.py], [medux/core/models.py] and
    [medux/core/admin.py], together with the parts of Python and Django that
    these files call: argument binding of constructors, Django's field
    construction and validation pipeline, base64 decoding ([binascii]) and
    strict UTF-8 decoding.

    A Python [str] is a list of code points ([list Z]); [s2l] turns an ASCII
    Rocq string literal into one. Exceptions are the constructor [Raise] of
    [result]. *)

From Stdlib Require Import ZArith List String Ascii Bool Lia.
Import ListNotations.
Open Scope Z_scope.

(** ** Python values, exceptions and helpers *)

Inductive py_exc :=
| ValueError
| TypeError
| BinasciiError
| UnicodeDecodeError
| ValidationError
| IntegrityError
| AlreadyRegistered
| ImproperlyConfigured.

Inductive result (A : Type) :=
| Ok (a : A)
| Raise (e : py_exc).
Arguments Ok {A} a.
Arguments Raise {A} e.

Definition bind {A B} (m : result A) (f : A -> result B) : result B :=
  match m with Ok a => f a | Raise e => Raise e end.
Notation "x <- m ;; k" := (bind m (fun x => k))
  (at level 61, m at next level, right associativity).

(** A Python [str]: its code points. *)
Definition pystr := list Z.

Definition s2l (s : string) : pystr :=
  map (fun a => Z.of_nat (nat_of_ascii a)) (list_ascii_of_string s).

Fixpoint pystr_eqb (a b : pystr) : bool :=
  match a, b with
  | [], [] => true
  | x :: a', y :: b' => (x =? y) && pystr_eqb a' b'
  | _, _ => false
  end.

Lemma pystr_eqb_eq : forall a b, pystr_eqb a b = true <-> a = b.
Proof.
  induction a as [|x a IH]; destruct b as [|y b]; simpl;
    try (split; congruence).
  rewrite andb_true_iff, Z.eqb_eq, IH. split.
  - intros [-> ->]. reflexivity.
  - intros H. injection H. auto.
Qed.

Definition Zlen {A} (l : list A) : Z := Z.of_nat (List.length l).

(** ** Bit operations as arithmetic *)

Lemma lor_shiftl_small : forall a b n, 0 <= n -> 0 <= b < 2 ^ n ->
  Z.lor (Z.shiftl a n) b = Z.shiftl a n + b.
Proof.
  intros a b n Hn Hb.
  assert (Hland : Z.land (Z.shiftl a n) b = 0).
  { apply Z.bits_inj'. intros i Hi. rewrite Z.land_spec, Z.bits_0.
    destruct (Z.lt_ge_cases i n) as [Hlt | Hge].
    - rewrite Z.shiftl_spec_low by lia. reflexivity.
    - rewrite <- (Z.mod_small b (2 ^ n)) by lia.
      rewrite Z.mod_pow2_bits_high by lia. apply andb_false_r. }
  rewrite <- Z.lxor_lor by exact Hland.
  rewrite Z.add_nocarry_lxor by exact Hland. reflexivity.
Qed.

Lemma land_low : forall x n, 0 <= n -> Z.land x (2 ^ n - 1) = x mod 2 ^ n.
Proof.
  intros x n Hn. replace (2 ^ n - 1) with (Z.ones n).
  - apply Z.land_ones. assumption.
  - rewrite Z.ones_equiv. lia.
Qed.

Lemma land_3 : forall x, Z.land x 3 = x mod 4.
Proof. intro x. exact (land_low x 2 ltac:(lia)). Qed.
Lemma land_15 : forall x, Z.land x 15 = x mod 16.
Proof. intro x. exact (land_low x 4 ltac:(lia)). Qed.
Lemma land_63 : forall x, Z.land x 63 = x mod 64.
Proof. intro x. exact (land_low x 6 ltac:(lia)). Qed.
Lemma land_255 : forall x, Z.land x 255 = x mod 256.
Proof. intro x. exact (land_low x 8 ltac:(lia)). Qed.

Lemma shiftl_const : forall x n, 0 <= n -> Z.shiftl x n = x * 2 ^ n.
Proof. intros. apply Z.shiftl_mul_pow2. assumption. Qed.
Lemma shiftr_const : forall x n, 0 <= n -> Z.shiftr x n = x / 2 ^ n.
Proof. intros. apply Z.shiftr_div_pow2. assumption. Qed.

Ltac zcase :=
  repeat match goal with
  | |- context [if ?a <? ?b then _ else _] => destruct (Z.ltb_spec a b)
  | |- context [if ?a <=? ?b then _ else _] => destruct (Z.leb_spec a b)
  | |- context [if ?a =? ?b then _ else _] => destruct (Z.eqb_spec a b)
  end.

(** ** base64.b64decode (Python standard library)

    [b64decode(s)] with [validate=False]: a [str] argument is first encoded
    to ASCII ([ValueError] if it holds a non-ASCII code point), then handed
    to [binascii.a2b_base64] in its non-strict mode, whose C loop is
    modelled below character by character. *)

(** [table_a2b_base64]: the value of a base64 alphabet character, 255 for
    any other byte. *)
Definition table_a2b_base64 (c : Z) : Z :=
  if (65 <=? c) && (c <=? 90) then c - 65             (* A-Z *)
  else if (97 <=? c) && (c <=? 122) then c - 71       (* a-z *)
  else if (48 <=? c) && (c <=? 57) then c + 4         (* 0-9 *)
  else if c =? 43 then 62                             (* + *)
  else if c =? 47 then 63                             (* / *)
  else 255.

Definition BASE64_PAD : Z := 61.  (* '=' *)

(** The locals of the decoding loop; [bin_data] is the output written so
    far. *)
Record a2b_state := mk_a2b {
  quad_pos : Z;
  leftchar : Z;
  pads : Z;
  bin_data : list Z
}.

(** One data character of value [v] (less than 64): the [switch] on
    [quad_pos]; [*bin_data++ = x] stores [x] as an [unsigned char]. *)
Definition a2b_data (st : a2b_state) (v : Z) : a2b_state :=
  let lc := leftchar st in
  let out := bin_data st in
  if quad_pos st =? 0 then mk_a2b 1 v 0 out
  else if quad_pos st =? 1 then
    mk_a2b 2 (Z.land v 15)
      0 (out ++ [Z.land (Z.lor (Z.shiftl lc 2) (Z.shiftr v 4)) 255])
  else if quad_pos st =? 2 then
    mk_a2b 3 (Z.land v 3)
      0 (out ++ [Z.land (Z.lor (Z.shiftl lc 4) (Z.shiftr v 2)) 255])
  else
    mk_a2b 0 0 0 (out ++ [Z.land (Z.lor (Z.shiftl lc 6) v) 255]).

Fixpoint a2b_loop (st : a2b_state) (s : list Z) : result (list Z) :=
  match s with
  | [] =>
      (* quad_pos = 1: "number of data characters cannot be 1 more than a
         multiple of 4"; 2 or 3: "Incorrect padding" *)
      if quad_pos st =? 0 then Ok (bin_data st) else Raise BinasciiError
  | ch :: rest =>
      if ch =? BASE64_PAD then
        (* [quad_pos >= 2 && quad_pos + ++pads >= 4]: [++pads] only runs
           when the first test holds *)
        if 2 <=? quad_pos st then
          let pads' := pads st + 1 in
          if 4 <=? quad_pos st + pads' then Ok (bin_data st)   (* goto done *)
          else a2b_loop (mk_a2b (quad_pos st) (leftchar st) pads' (bin_data st)) rest
        else a2b_loop st rest
      else
        let v := table_a2b_base64 ch in
        if 64 <=? v then a2b_loop st rest                    (* skipped *)
        else a2b_loop (a2b_data st v) rest
  end.

Definition a2b_base64 (s : list Z) : result (list Z) :=
  a2b_loop (mk_a2b 0 0 0 []) s.

Definition b64decode (s : pystr) : result (list Z) :=
  if forallb (fun c => c <? 128) s then a2b_base64 s else Raise ValueError.

(** ** bytes.decode("utf-8") (strict)

    CPython's UTF-8 decoder (Objects/stringlib/codecs.h): the lead byte
    selects the sequence length, [IS_CONTINUATION_BYTE] checks the others,
    the second byte of E0/ED/F0/F4 sequences is range-checked (no overlong
    forms, no surrogates, nothing above U+10FFFF), and the code point is
    assembled with the shifts of the C code. Every failure (invalid start
    byte, invalid continuation byte, unexpected end of data) raises
    [UnicodeDecodeError]. *)

Definition IS_CONTINUATION_BYTE (c : Z) : bool := (128 <=? c) && (c <? 192).

Definition cons_r {A} (x : A) (r : result (list A)) : result (list A) :=
  match r with Ok l => Ok (x :: l) | Raise e => Raise e end.

Fixpoint utf8_decode (bs : list Z) : result pystr :=
  match bs with
  | [] => Ok []
  | ch :: r0 =>
      if ch <? 128 then cons_r ch (utf8_decode r0)
      else if ch <? 224 then
        if ch <? 194 then Raise UnicodeDecodeError
        else match r0 with
             | ch2 :: r1 =>
                 if IS_CONTINUATION_BYTE ch2 then
                   cons_r (Z.shiftl ch 6 + ch2 - (Z.shiftl 192 6 + 128)) (utf8_decode r1)
                 else Raise UnicodeDecodeError
             | [] => Raise UnicodeDecodeError
             end
      else if ch <? 240 then
        match r0 with
        | ch2 :: ch3 :: r2 =>
            if negb (IS_CONTINUATION_BYTE ch2) then Raise UnicodeDecodeError
            else if (ch =? 224) && (ch2 <? 160) then Raise UnicodeDecodeError
            else if (ch =? 237) && (160 <=? ch2) then Raise UnicodeDecodeError
            else if negb (IS_CONTINUATION_BYTE ch3) then Raise UnicodeDecodeError
            else cons_r (Z.shiftl ch 12 + Z.shiftl ch2 6 + ch3
                         - (Z.shiftl 224 12 + Z.shiftl 128 6 + 128)) (utf8_decode r2)
        | _ => Raise UnicodeDecodeError
        end
      else if ch <? 245 then
        match r0 with
        | ch2 :: ch3 :: ch4 :: r3 =>
            if negb (IS_CONTINUATION_BYTE ch2) then Raise UnicodeDecodeError
            else if (ch =? 240) && (ch2 <? 144) then Raise UnicodeDecodeError
            else if (ch =? 244) && (144 <=? ch2) then Raise UnicodeDecodeError
            else if negb (IS_CONTINUATION_BYTE ch3) then Raise UnicodeDecodeError
            else if negb (IS_CONTINUATION_BYTE ch4) then Raise UnicodeDecodeError
            else cons_r (Z.shiftl ch 18 + Z.shiftl ch2 12 + Z.shiftl ch3 6 + ch4
                         - (Z.shiftl 240 18 + Z.shiftl 128 12 + Z.shiftl 128 6 + 128))
                        (utf8_decode r3)
        | _ => Raise UnicodeDecodeError
        end
      else Raise UnicodeDecodeError
  end.

(** ** Base64TextField (fields.py, lines 37-48)

    [from_db_value] is a [staticmethod] of one argument. A database value is
    [None] or a [str]. *)
Definition Base64TextField_from_db_value (value : option pystr) : result (option pystr) :=
  match value with
  | None => Ok None
  | Some v => bytes <- b64decode v ;; text <- utf8_decode bytes ;; Ok (Some text)
  end.

(** The field defines no [get_prep_value] or [to_python]: writing goes
    through the inherited [TextField.get_prep_value], which returns
    [self.to_python(value)], and [TextField.to_python] returns a [str] or
    [None] as it is. *)
Definition TextField_to_python (value : option pystr) : option pystr := value.
Definition Base64TextField_get_prep_value (value : option pystr) : option pystr :=
  TextField_to_python value.

(** ** What a valid stored value is: [base64.b64encode(text.encode("utf-8"))]

    [str.encode("utf-8")] of a [str] made of Unicode scalar values, and
    [base64.b64encode] (standard alphabet, [=] padding). *)

Definition valid_scalar (c : Z) : bool :=
  (0 <=? c) && (c <? 1114112) && negb ((55296 <=? c) && (c <=? 57343)).

Definition utf8_encode_char (c : Z) : list Z :=
  if c <? 128 then [c]
  else if c <? 2048 then [192 + c / 64; 128 + c mod 64]
  else if c <? 65536 then [224 + c / 4096; 128 + (c / 64) mod 64; 128 + c mod 64]
  else [240 + c / 262144; 128 + (c / 4096) mod 64; 128 + (c / 64) mod 64; 128 + c mod 64].

Definition utf8_encode (t : pystr) : list Z := flat_map utf8_encode_char t.

(** [table_b2a_base64]: "A..Z a..z 0..9 + /". *)
Definition table_b2a_base64 (n : Z) : Z :=
  if n <? 26 then 65 + n
  else if n <? 52 then 71 + n
  else if n <? 62 then n - 4
  else if n =? 62 then 43
  else 47.

Fixpoint b64encode (bs : list Z) : pystr :=
  match bs with
  | b0 :: b1 :: b2 :: rest =>
      [table_b2a_base64 (b0 / 4);
       table_b2a_base64 ((b0 mod 4) * 16 + b1 / 16);
       table_b2a_base64 ((b1 mod 16) * 4 + b2 / 64);
       table_b2a_base64 (b2 mod 64)] ++ b64encode rest
  | [b0; b1] =>
      [table_b2a_base64 (b0 / 4);
       table_b2a_base64 ((b0 mod 4) * 16 + b1 / 16);
       table_b2a_base64 ((b1 mod 16) * 4); BASE64_PAD]
  | [b0] =>
      [table_b2a_base64 (b0 / 4); table_b2a_base64 ((b0 mod 4) * 16);
       BASE64_PAD; BASE64_PAD]
  | [] => []
  end.

Example b64encode_hi : b64encode (s2l "Hi!?") = s2l "SGkhPw==".
Proof. reflexivity. Qed.
Example from_db_value_hello :
  Base64TextField_from_db_value (Some (s2l "aMOpbGxv")) = Ok (Some [104; 233; 108; 108; 111]).
Proof. reflexivity. Qed.
Example utf8_roundtrip_sample :
  utf8_decode (utf8_encode [36; 162; 2361; 8364; 55295; 57344; 65535; 65536; 66376; 1114111])
  = Ok [36; 162; 2361; 8364; 55295; 57344; 65535; 65536; 66376; 1114111].
Proof. reflexivity. Qed.

(** ** Round-trip lemmas for decoding *)

Ltac zlia := Z.div_mod_to_equations; lia.

Ltac no_if t := lazymatch t with context [if _ then _ else _] => fail | _ => idtac end.

(** Split on the innermost comparisons of the goal first. *)
Ltac zsplit :=
  repeat (match goal with
          | |- context [?a <? ?b] => no_if a; no_if b; destruct (Z.ltb_spec a b)
          | |- context [?a <=? ?b] => no_if a; no_if b; destruct (Z.leb_spec a b)
          | |- context [?a =? ?b] => no_if a; no_if b; destruct (Z.eqb_spec a b)
          end; cbn [andb orb negb] in *; try zlia).

Lemma shl6 : forall x, Z.shiftl x 6 = x * 64.
Proof. intro x. apply shiftl_const. lia. Qed.
Lemma shl12 : forall x, Z.shiftl x 12 = x * 4096.
Proof. intro x. apply shiftl_const. lia. Qed.
Lemma shl18 : forall x, Z.shiftl x 18 = x * 262144.
Proof. intro x. apply shiftl_const. lia. Qed.

Lemma valid_scalar_spec : forall c, valid_scalar c = true <->
  0 <= c < 1114112 /\ ~ (55296 <= c <= 57343).
Proof. intro c. unfold valid_scalar. split; zsplit; intuition (try lia; discriminate). Qed.

Lemma utf8_decode_char : forall c rest, valid_scalar c = true ->
  utf8_decode (utf8_encode_char c ++ rest) = cons_r c (utf8_decode rest).
Proof.
  intros c rest Hv. apply valid_scalar_spec in Hv.
  unfold utf8_encode_char.
  zsplit; cbn [app utf8_decode]; unfold IS_CONTINUATION_BYTE; zsplit;
    f_equal; rewrite ?shl6, ?shl12, ?shl18; zlia.
Qed.

Lemma utf8_decode_encode : forall t, forallb valid_scalar t = true ->
  utf8_decode (utf8_encode t) = Ok t.
Proof.
  induction t as [|c t IH]; [reflexivity |].
  cbn [forallb utf8_encode flat_map]. intros H. apply andb_true_iff in H as [Hc Ht].
  rewrite utf8_decode_char by exact Hc. fold (utf8_encode t). rewrite IH by exact Ht.
  reflexivity.
Qed.

Definition is_byte (b : Z) : bool := (0 <=? b) && (b <? 256).

Lemma utf8_encode_char_bytes : forall c, valid_scalar c = true ->
  forallb is_byte (utf8_encode_char c) = true.
Proof.
  intros c Hv. apply valid_scalar_spec in Hv. unfold utf8_encode_char, is_byte.
  zsplit; cbn [forallb]; zsplit; reflexivity.
Qed.

Lemma utf8_encode_bytes : forall t, forallb valid_scalar t = true ->
  forallb is_byte (utf8_encode t) = true.
Proof.
  induction t as [|c t IH]; [reflexivity |].
  cbn [forallb utf8_encode flat_map]. intros H. apply andb_true_iff in H as [Hc Ht].
  rewrite forallb_app, utf8_encode_char_bytes by exact Hc. apply IH. exact Ht.
Qed.

Lemma table_b2a_a2b : forall n, 0 <= n < 64 ->
  table_a2b_base64 (table_b2a_base64 n) = n.
Proof.
  intros n Hn. unfold table_b2a_base64, table_a2b_base64. zsplit.
Qed.

Lemma table_b2a_not_pad : forall n, 0 <= n < 64 ->
  (table_b2a_base64 n =? BASE64_PAD) = false.
Proof. intros n Hn. unfold table_b2a_base64, BASE64_PAD. zsplit; reflexivity. Qed.

Lemma table_b2a_ascii : forall n, (table_b2a_base64 n <? 128) = true.
Proof. intros n. unfold table_b2a_base64. zsplit; reflexivity. Qed.

Lemma a2b_loop_data : forall st n rest, 0 <= n < 64 ->
  a2b_loop st (table_b2a_base64 n :: rest) = a2b_loop (a2b_data st n) rest.
Proof.
  intros st n rest Hn. cbn [a2b_loop].
  rewrite table_b2a_not_pad, table_b2a_a2b by exact Hn.
  destruct (Z.leb_spec 64 n); [lia | reflexivity].
Qed.

Lemma shr2 : forall x, Z.shiftr x 2 = x / 4.
Proof. intro x. apply shiftr_const. lia. Qed.
Lemma shr4 : forall x, Z.shiftr x 4 = x / 16.
Proof. intro x. apply shiftr_const. lia. Qed.
Lemma lor_shl2 : forall a b, 0 <= b < 4 -> Z.lor (Z.shiftl a 2) b = a * 4 + b.
Proof. intros. rewrite lor_shiftl_small, shiftl_const; simpl; lia. Qed.
Lemma lor_shl4 : forall a b, 0 <= b < 16 -> Z.lor (Z.shiftl a 4) b = a * 16 + b.
Proof. intros. rewrite lor_shiftl_small, shiftl_const; simpl; lia. Qed.
Lemma lor_shl6 : forall a b, 0 <= b < 64 -> Z.lor (Z.shiftl a 6) b = a * 64 + b.
Proof. intros. rewrite lor_shiftl_small, shiftl_const; simpl; lia. Qed.

Ltac a2b_arith :=
  rewrite ?shr2, ?shr4, ?land_3, ?land_15;
  rewrite ?lor_shl2, ?lor_shl4, ?lor_shl6 by zlia;
  rewrite ?land_255; zlia.

(** Four characters of a full group give back its three bytes. *)
Lemma a2b_loop_group : forall lc p out b0 b1 b2 rest,
  0 <= b0 < 256 -> 0 <= b1 < 256 -> 0 <= b2 < 256 ->
  a2b_loop (mk_a2b 0 lc p out)
    ([table_b2a_base64 (b0 / 4);
      table_b2a_base64 ((b0 mod 4) * 16 + b1 / 16);
      table_b2a_base64 ((b1 mod 16) * 4 + b2 / 64);
      table_b2a_base64 (b2 mod 64)] ++ rest)
  = a2b_loop (mk_a2b 0 0 0 (out ++ [b0; b1; b2])) rest.
Proof.
  intros lc p out b0 b1 b2 rest H0 H1 H2. cbn [app].
  rewrite !a2b_loop_data by zlia.
  unfold a2b_data; cbn [quad_pos leftchar bin_data Z.eqb Pos.eqb].
  rewrite <- !app_assoc. cbn [app]. repeat f_equal; a2b_arith.
Qed.

(** Padding closes a group of two or three characters. *)
Lemma a2b_loop_pad2 : forall lc out rest,
  a2b_loop (mk_a2b 2 lc 0 out) (BASE64_PAD :: BASE64_PAD :: rest) = Ok out.
Proof. reflexivity. Qed.

Lemma a2b_loop_pad3 : forall lc out rest,
  a2b_loop (mk_a2b 3 lc 0 out) (BASE64_PAD :: rest) = Ok out.
Proof. reflexivity. Qed.

Lemma a2b_loop_b64encode : forall n bs lc p out,
  (List.length bs <= n)%nat -> forallb is_byte bs = true ->
  a2b_loop (mk_a2b 0 lc p out) (b64encode bs) = Ok (out ++ bs).
Proof.
  induction n as [|n IH]; intros bs lc p out Hlen Hb.
  - destruct bs; [| simpl in Hlen; lia]. cbn. rewrite app_nil_r. reflexivity.
  - destruct bs as [|b0 [|b1 [|b2 rest]]]; cbn [forallb] in Hb; unfold is_byte in Hb;
      rewrite ?andb_true_iff, ?Z.leb_le, ?Z.ltb_lt in Hb.
    + cbn. rewrite app_nil_r. reflexivity.
    + destruct Hb as [[? ?] _]. cbn [b64encode].
      rewrite !a2b_loop_data by zlia.
      unfold a2b_data; cbn [quad_pos leftchar pads bin_data Z.eqb Pos.eqb].
      rewrite a2b_loop_pad2. cbn [app]. repeat f_equal. a2b_arith.
    + destruct Hb as [[? ?] [[? ?] _]]. cbn [b64encode].
      rewrite !a2b_loop_data by zlia.
      unfold a2b_data; cbn [quad_pos leftchar pads bin_data Z.eqb Pos.eqb].
      rewrite a2b_loop_pad3, <- app_assoc. cbn [app]. repeat f_equal; a2b_arith.
    + destruct Hb as [[? ?] [[? ?] [[? ?] Hrest]]]. cbn [b64encode].
      rewrite a2b_loop_group by lia. rewrite IH.
      * rewrite <- app_assoc. reflexivity.
      * simpl in Hlen. lia.
      * exact Hrest.
Qed.

Lemma b64encode_ascii : forall bs, forallb (fun c => c <? 128) (b64encode bs) = true.
Proof.
  fix IH 1. intros [|b0 [|b1 [|b2 rest]]]; cbn [b64encode];
    rewrite ?forallb_app; cbn [forallb]; rewrite ?table_b2a_ascii; try reflexivity.
  apply IH.
Qed.

Lemma b64decode_b64encode : forall bs, forallb is_byte bs = true ->
  b64decode (b64encode bs) = Ok bs.
Proof.
  intros bs Hb. unfold b64decode. rewrite b64encode_ascii.
  unfold a2b_base64. apply (a2b_loop_b64encode (List.length bs)); [lia | exact Hb].
Qed.

(** ** Python values and keyword arguments *)

Inductive on_delete := CASCADE | PROTECT | SET_NULL.

(** Regular expressions as [re] compiles them, for the patterns used here. *)
Inductive regex :=
| RClass (p : Z -> bool)          (* one character of a class *)
| RSeq (r1 r2 : regex)
| RStar (r : regex).              (* greedy [*] *)

Definition RPlus (r : regex) : regex := RSeq r (RStar r).

(** Django validators used by the fields below. A [MaxLengthValidator]
    whose limit is not an integer raises [TypeError] when called. *)
Inductive validator :=
| RegexValidator (r : regex)
| MaxLengthValidator (limit : option Z)
| URLValidator.

Inductive py_callable := Uuid4.

Inductive pyval :=
| VNone
| VBool (b : bool)
| VInt (z : Z)
| VStr (s : pystr)
| VUUID (u : Z)                          (* a uuid.UUID instance *)
| VCallable (f : py_callable)
| VChoices (c : list (pystr * pystr))
| VValidators (vs : list validator)
| VModel (name : string)                 (* a model class *)
| VOnDelete (d : on_delete)
| VRel.                                  (* the rel object of a relation *)

Definition truthy (v : pyval) : bool :=
  match v with
  | VNone => false
  | VBool b => b
  | VInt z => negb (z =? 0)
  | VStr s => match s with [] => false | _ => true end
  | VChoices l => match l with [] => false | _ => true end
  | VValidators l => match l with [] => false | _ => true end
  | _ => true
  end.

(** A [**kwargs] dict. *)
Definition kwargs := list (string * pyval).

Fixpoint kw_get (k : string) (kw : kwargs) : option pyval :=
  match kw with
  | [] => None
  | (k', v) :: kw' => if String.eqb k k' then Some v else kw_get k kw'
  end.

Definition kw_get_or (k : string) (dflt : pyval) (kw : kwargs) : pyval :=
  match kw_get k kw with Some v => v | None => dflt end.

Definition kw_del (k : string) (kw : kwargs) : kwargs :=
  filter (fun '(k', _) => negb (String.eqb k k')) kw.

(** [kwargs[k] = v] *)
Definition kw_set (k : string) (v : pyval) (kw : kwargs) : kwargs := (k, v) :: kw_del k kw.

(** [kwargs.setdefault(k, v)] *)
Definition kw_setdefault (k : string) (v : pyval) (kw : kwargs) : kwargs :=
  match kw_get k kw with Some _ => kw | None => kw_set k v kw end.

(** Binding positional arguments to the named parameters of a Python
    signature: a parameter given both ways, or a positional argument left
    over when the signature has no [*args], is a [TypeError]. *)
Fixpoint bind_pos (params : list string) (args : list pyval) (kw : kwargs) : result kwargs :=
  match args, params with
  | [], _ => Ok kw
  | a :: args', p :: params' =>
      match kw_get p kw with
      | Some _ => Raise TypeError
      | None => bind_pos params' args' (kw_set p a kw)
      end
  | _ :: _, [] => Raise TypeError
  end.

(** ** Django fields *)

(** The parameters of [Field.__init__], in order. *)
Definition Field_params : list string :=
  ["verbose_name"; "name"; "primary_key"; "max_length"; "unique"; "blank";
   "null"; "db_index"; "rel"; "default"; "editable"; "serialize";
   "unique_for_date"; "unique_for_month"; "unique_for_year"; "choices";
   "help_text"; "db_column"; "db_tablespace"; "auto_created"; "validators";
   "error_messages"]%string.

Definition in_params (params : list string) (k : string) : bool :=
  existsb (String.eqb k) params.

(** The attributes of a constructed field that the claims are about;
    [f_default = None] is [NOT_PROVIDED]; [f_validators] is the field's
    [validators] list ([default_validators] then [_validators], with what
    the constructor appends); [f_attrs] holds attributes a subclass adds. *)
Record Field := mkField {
  f_max_length : pyval;
  f_blank : bool;
  f_null : bool;
  f_primary_key : bool;
  f_default : option pyval;
  f_choices : list (pystr * pystr);
  f_validators : list validator;
  f_attrs : kwargs
}.

Definition Field_init (default_validators : list validator)
    (args : list pyval) (kw : kwargs) : result Field :=
  d <- bind_pos Field_params args kw ;;
  if forallb (fun '(k, _) => in_params Field_params k) d then
    vs <- match kw_get "validators"%string d with
          | None => Ok []
          | Some (VValidators l) => Ok l
          | Some _ => Raise TypeError        (* list(validators) *)
          end ;;
    Ok (mkField
          (kw_get_or "max_length"%string VNone d)
          (truthy (kw_get_or "blank"%string (VBool false) d))
          (truthy (kw_get_or "null"%string (VBool false) d))
          (truthy (kw_get_or "primary_key"%string (VBool false) d))
          (kw_get "default"%string d)
          (match kw_get "choices"%string d with Some (VChoices l) => l | _ => [] end)
          (default_validators ++ vs)
          [])
  else Raise TypeError.                      (* unexpected keyword argument *)

Definition as_int (v : pyval) : option Z :=
  match v with VInt z => Some z | _ => None end.

Definition add_validator (f : Field) (v : validator) : Field :=
  mkField (f_max_length f) (f_blank f) (f_null f) (f_primary_key f) (f_default f)
    (f_choices f) (f_validators f ++ [v]) (f_attrs f).

Definition add_attrs (f : Field) (a : kwargs) : Field :=
  mkField (f_max_length f) (f_blank f) (f_null f) (f_primary_key f) (f_default f)
    (f_choices f) (f_validators f) (a ++ f_attrs f).

(** [CharField.__init__]: [Field.__init__], then
    [self.validators.append(MaxLengthValidator(self.max_length))]. *)
Definition CharField_init (default_validators : list validator)
    (args : list pyval) (kw : kwargs) : result Field :=
  f <- Field_init default_validators args kw ;;
  Ok (add_validator f (MaxLengthValidator (as_int (f_max_length f)))).

(** [URLField.__init__(self, verbose_name=None, name=None, **kwargs)]:
    [kwargs.setdefault('max_length', 200)], with [default_validators =
    [URLValidator()]]. *)
Definition URLField_init (args : list pyval) (kw : kwargs) : result Field :=
  d <- bind_pos ["verbose_name"; "name"]%string args kw ;;
  let vn := kw_get_or "verbose_name"%string VNone d in
  let nm := kw_get_or "name"%string VNone d in
  let rest := kw_del "name"%string (kw_del "verbose_name"%string d) in
  CharField_init [URLValidator] [vn; nm] (kw_setdefault "max_length"%string (VInt 200) rest).

(** [uuid.uuid4()] draws a fresh token from the generator state. *)
Definition uuid4 (g : Z) : pyval * Z := (VUUID g, g + 1).

(** ** The field classes of fields.py *)

(** [UriField.__init__] (lines 106-109). *)
Definition UriField_init (args : list pyval) (kw : kwargs) : result Field :=
  URLField_init args (kw_set "max_length"%string (VInt 255) kw).

(** [CodeField.__init__(self, value_set=None, *args, **kwargs)]
    (lines 126-133). *)
Definition CodeField_init (args : list pyval) (kw : kwargs) : result Field :=
  d <- bind_pos ["value_set"]%string (firstn 1 args) kw ;;
  let value_set := kw_get_or "value_set"%string VNone d in
  let rest := kw_del "value_set"%string d in
  f <- CharField_init [] (skipn 1 args) (kw_set "max_length"%string (VInt 64) rest) ;;
  Ok (add_attrs f [("value_set"%string, value_set)]).

Definition is_digit (c : Z) : bool := (48 <=? c) && (c <=? 57).

(** The pattern of line 141: one of [0-2], then one or more groups made
    of a dot, one of [1-9] and any number of further digits ([\d], taken
    as the ASCII digits). *)
Definition oid_regex : regex :=
  RSeq (RClass (fun c => (48 <=? c) && (c <=? 50)))
       (RPlus (RSeq (RClass (fun c => c =? 46))
                    (RSeq (RClass (fun c => (49 <=? c) && (c <=? 57)))
                          (RStar (RClass is_digit))))).

(** [OidField.__init__] (lines 139-144). *)
Definition OidField_init (args : list pyval) (kw : kwargs) : result Field :=
  UriField_init args (kw_set "validators"%string (VValidators [RegexValidator oid_regex]) kw).

(** [IdField.__init__] (lines 155-158): [uuid4()] is called once, when the
    field is constructed, and its value becomes [default]. *)
Definition IdField_init (args : list pyval) (kw : kwargs) (g : Z) : result Field * Z :=
  let kw1 := kw_set "max_length"%string (VInt 64) kw in
  let '(u, g1) := uuid4 g in
  let kw2 := kw_set "default"%string u kw1 in
  (CharField_init [] args kw2, g1).

(** [Field.get_default]: a callable default is called, any other default
    is returned as it is; without a default a [CharField] gives [None] when
    [null] and [''] otherwise. *)
Definition get_default (f : Field) (g : Z) : pyval * Z :=
  match f_default f with
  | Some (VCallable Uuid4) => uuid4 g
  | Some v => (v, g)
  | None => (if f_null f then VNone else VStr [], g)
  end.

(** [ForeignKey]: the relation target [to], the deletion policy and the
    underlying field. *)
Record ForeignKey := mkFK {
  fk_to : pyval;
  fk_on_delete : pyval;
  fk_related_name : pyval;
  fk_field : Field
}.

Definition ForeignKey_params : list string :=
  ["to"; "on_delete"; "related_name"; "related_query_name"; "limit_choices_to";
   "parent_link"; "to_field"; "db_constraint"]%string.

(** [ForeignKey.__init__(self, to, on_delete, related_name=None, ...,
    **kwargs)]: [to] and [on_delete] are required; the remaining keyword
    arguments, with [rel] and [db_index] added, go to [Field.__init__]. *)
Definition ForeignKey_init (args : list pyval) (kw : kwargs) : result ForeignKey :=
  d <- bind_pos ForeignKey_params args kw ;;
  match kw_get "to"%string d, kw_get "on_delete"%string d with
  | Some to, Some od =>
      let rest := filter (fun '(k, _) => negb (in_params ForeignKey_params k)) d in
      f <- Field_init [] [] (kw_setdefault "db_index"%string (VBool true) (kw_set "rel"%string VRel rest)) ;;
      Ok (mkFK to od (kw_get_or "related_name"%string VNone d) f)
  | _, _ => Raise TypeError
  end.

(** [ReferenceField.__init__(self, to, on_delete, *args, **kwargs)]
    (lines 80-92): [to] is kept as [referred_object] and the foreign key is
    built with [to='Reference']. *)
Definition ReferenceField_init (args : list pyval) (kw : kwargs) : result ForeignKey :=
  d <- bind_pos ["to"; "on_delete"]%string (firstn 2 args) kw ;;
  match kw_get "to"%string d, kw_get "on_delete"%string d with
  | Some to, Some od =>
      let rest := kw_del "on_delete"%string (kw_del "to"%string d) in
      let kw' := kw_set "on_delete"%string od (kw_set "to"%string (VStr (s2l "Reference")) rest) in
      fk <- ForeignKey_init (skipn 2 args) kw' ;;
      Ok (mkFK (fk_to fk) (fk_on_delete fk) (fk_related_name fk)
               (add_attrs (fk_field fk) [("referred_object"%string, to)]))
  | _, _ => Raise TypeError
  end.

(** The model a foreign key's target resolves to: a model class, or a
    model name looked up in the app registry. *)
Definition related_model (fk : ForeignKey) : option string :=
  match fk_to fk with
  | VModel m => Some m
  | VStr s => Some (string_of_list_ascii (map (fun z => ascii_of_nat (Z.to_nat z)) s))
  | _ => None
  end.

(** ** Regular-expression matching

    Backtracking matching with a continuation; a starred pattern is tried
    at most as many times as there are characters left. [re.search] tries
    every start position. *)
Fixpoint re_match (r : regex) (s : list Z) (k : list Z -> bool) : bool :=
  match r with
  | RClass p => match s with c :: s' => p c && k s' | [] => false end
  | RSeq r1 r2 => re_match r1 s (fun s' => re_match r2 s' k)
  | RStar r1 =>
      (fix loop (n : nat) (s : list Z) : bool :=
         match n with
         | O => k s
         | S n' => re_match r1 s (fun s' => loop n' s') || k s
         end) (List.length s) s
  end.

Fixpoint re_search (r : regex) (s : list Z) : bool :=
  re_match r s (fun _ => true) ||
  match s with [] => false | _ :: s' => re_search r s' end.

Definition re_fullmatch (r : regex) (s : list Z) : bool :=
  re_match r s (fun rest => match rest with [] => true | _ => false end).

(** ** Validation *)

(** [value.split('://')[0]] *)
Fixpoint split_scheme (s : pystr) : pystr :=
  match s with
  | [] => []
  | c :: s' =>
      match s with
      | c1 :: c2 :: c3 :: _ =>
          if (c1 =? 58) && (c2 =? 47) && (c3 =? 47) then [] else c :: split_scheme s'
      | _ => c :: split_scheme s'
      end
  end.

(** [str.lower()] on the characters that can lower to an ASCII letter of
    a scheme name. *)
Definition ascii_lower (s : pystr) : pystr :=
  map (fun c => if (65 <=? c) && (c <=? 90) then c + 32 else c) s.

Definition url_schemes : list pystr := [s2l "http"; s2l "https"; s2l "ftp"; s2l "ftps"].

Section Validation.

(** What [URLValidator] checks once the scheme is accepted (its URL regular
    expression, the IDNA retry and the host checks): Django's, not this
    repository's, and kept abstract. *)
Variable url_rest_ok : pystr -> bool.

(** [URLValidator.__call__]: the scheme is checked first. *)
Definition URLValidator_call (value : pystr) : result unit :=
  let scheme := ascii_lower (split_scheme value) in
  if negb (existsb (pystr_eqb scheme) url_schemes) then Raise ValidationError
  else if url_rest_ok value then Ok tt else Raise ValidationError.

Definition run_validator (v : validator) (value : pystr) : result unit :=
  match v with
  | RegexValidator r => if re_search r value then Ok tt else Raise ValidationError
  | MaxLengthValidator (Some n) => if n <? Zlen value then Raise ValidationError else Ok tt
  | MaxLengthValidator None => Raise TypeError
  | URLValidator => URLValidator_call value
  end.

(** [Field.run_validators]: every validator runs, their [ValidationError]s
    are collected, any other exception propagates. *)
Fixpoint run_validators_loop (vs : list validator) (value : pystr) (errors : bool) : result unit :=
  match vs with
  | [] => if errors then Raise ValidationError else Ok tt
  | v :: vs' =>
      match run_validator v value with
      | Ok _ => run_validators_loop vs' value errors
      | Raise ValidationError => run_validators_loop vs' value true
      | Raise e => Raise e
      end
  end.

Definition is_empty_value (value : option pystr) : bool :=
  match value with None | Some [] => true | _ => false end.

Definition run_validators (f : Field) (value : option pystr) : result unit :=
  match value with
  | Some v => if is_empty_value value then Ok tt else run_validators_loop (f_validators f) v false
  | None => Ok tt
  end.

(** [Field.validate]: a value among the choices returns at once; then the
    [null] and [blank] checks. *)
Definition validate (f : Field) (value : option pystr) : result unit :=
  let choice_check :=
    match f_choices f, value with
    | [], _ => None
    | cs, Some v =>
        if is_empty_value value then None
        else if existsb (fun '(key, _) => pystr_eqb v key) cs then Some (Ok tt)
        else Some (Raise ValidationError)
    | _, None => None
    end in
  match choice_check with
  | Some r => r
  | None =>
      match value with
      | None => if f_null f then
                  (if f_blank f then Ok tt else Raise ValidationError)
                else Raise ValidationError
      | Some v => if negb (f_blank f) && is_empty_value value then Raise ValidationError
                  else Ok tt
      end
  end.

(** [Field.clean]: [to_python] (a [str] or [None] is kept as it is), then
    [validate], then [run_validators]. *)
Definition clean (f : Field) (value : option pystr) : result (option pystr) :=
  _ <- validate f value ;;
  _ <- run_validators f value ;;
  Ok value.

End Validation.

(** ** models.py *)

(** [PUBLICATION_STATUS] (lines 101-106). *)
Definition PUBLICATION_STATUS : list (pystr * pystr) :=
  [(s2l "draft", s2l "Draft"); (s2l "active", s2l "Active");
   (s2l "retired", s2l "Retired"); (s2l "unknown", s2l "Unknown")].

(** [StructureDefinition.status = CodeField(choices=PUBLICATION_STATUS)]
    (line 170). *)
Definition StructureDefinition_status : result Field :=
  CodeField_init [] [("choices"%string, VChoices PUBLICATION_STATUS)].

(** [ValueSet.status = CodeField("PublicationStatus")] (line 255). *)
Definition ValueSet_status : result Field :=
  CodeField_init [VStr (s2l "PublicationStatus")] [].

(** [Meta.versionId = IdField(primary_key=True)] (line 63), built from the
    generator state [g] when the class body runs. *)
Definition Meta_versionId (g : Z) : result Field * Z :=
  IdField_init [] [("primary_key"%string, VBool true)] g.

(** [Patient.generalPractitioner] (lines 390-391). *)
Definition Patient_generalPractitioner : result ForeignKey :=
  ReferenceField_init [VStr (s2l "Organization|Practitioner")]
    [("on_delete"%string, VOnDelete SET_NULL); ("null"%string, VBool true);
     ("related_name"%string, VStr (s2l "+"))].

(** [Patient.managingOrganisation] (lines 392-393). *)
Definition Patient_managingOrganisation : result ForeignKey :=
  ReferenceField_init [VModel "Organisation"]
    [("on_delete"%string, VOnDelete SET_NULL); ("null"%string, VBool true);
     ("related_name"%string, VStr (s2l "+"))].




(** [Identifier.system = UriField(null=False)] (line 210). *)
Definition Identifier_system : result Field :=
  UriField_init [] [("null"%string, VBool false)].

(** [Identifier.assigner] (line 217). *)
Definition Identifier_assigner : result ForeignKey :=
  ReferenceField_init [VStr (s2l "Organisation")]
    [("null"%string, VBool true); ("on_delete"%string, VOnDelete SET_NULL);
     ("related_name"%string, VStr (s2l "asignee"))].


(** *** Reference (lines 225-234) and its table

    A row: its primary key, [references], the [identifier] foreign key and
    [display]. Both character columns are [NOT NULL] ([null=False]), which a
    [str] always satisfies; [identifier_id] is nullable. *)
Record Reference := mkReference {
  ref_pk : Z;
  references : pystr;
  identifier_id : option Z;
  display : pystr
}.

Record DB := mkDB {
  identifier_rows : list Z;          (* primary keys of Identifier rows *)
  reference_rows : list Reference
}.

(** [Model.save]: no model validation runs; the row is inserted or, when
    its primary key exists, updated; the database refuses an [identifier]
    that names no Identifier row. *)
Definition Reference_save (db : DB) (r : Reference) : result DB :=
  let fk_ok := match identifier_id r with
               | None => true
               | Some i => existsb (Z.eqb i) (identifier_rows db)
               end in
  if fk_ok then
    Ok (mkDB (identifier_rows db)
             (r :: filter (fun r' => negb (ref_pk r' =? ref_pk r)) (reference_rows db)))
  else Raise IntegrityError.

(** Model methods run on the database and the instance. *)
Definition ST (A : Type) := DB * Reference -> result A * (DB * Reference).

(** [Reference.validate_unique(self, exclude=None): pass] *)
Definition Reference_validate_unique (exclude : option (list string)) : ST unit :=
  fun s => (Ok tt, s).

(** What the override replaces: [Model.validate_unique] checks the unique
    primary key of an instance being added against the stored rows, unless
    the key is excluded. *)
Definition Model_validate_unique (adding : bool) (exclude : option (list string)) : ST unit :=
  fun '(db, r) =>
    let excluded := match exclude with
                    | Some l => existsb (String.eqb "element_ptr") l
                    | None => false
                    end in
    if negb excluded && adding && existsb (fun r' => ref_pk r' =? ref_pk r) (reference_rows db)
    then (Raise ValidationError, (db, r))
    else (Ok tt, (db, r)).

(** *** Attachment.__str__ (lines 363-364) *)



(** ** admin.py *)

Record ModelAdmin := mkModelAdmin {
  list_display : list string;
  list_filter : list string;
  search_fields : list string
}.

(** [ModelAdmin] with no option overridden. *)
Definition default_ModelAdmin : ModelAdmin := mkModelAdmin ["__str__"%string] [] [].

(** The abstract models of models.py. *)
Definition is_abstract (m : string) : bool := String.eqb m "Meta".

Definition registry := list (string * ModelAdmin).

(** [admin.site.register(model, admin_class=None)]. *)
Definition admin_register (m : string) (admin_class : option ModelAdmin) (reg : registry)
    : result registry :=
  if is_abstract m then Raise ImproperlyConfigured
  else if existsb (fun '(m', _) => String.eqb m m') reg then Raise AlreadyRegistered
  else Ok (reg ++ [(m, match admin_class with Some a => a | None => default_ModelAdmin end)]).

(** The module body (lines 23-32). *)
Definition admin_module (reg : registry) : result registry :=
  reg <- admin_register "Resource" None reg ;;
  reg <- admin_register "DomainResource" None reg ;;
  reg <- admin_register "Coding" None reg ;;
  reg <- admin_register "Period" None reg ;;
  reg <- admin_register "StructureDefinition" None reg ;;
  reg <- admin_register "Identifier" None reg ;;
  reg <- admin_register "ValueSet" None reg ;;
  reg <- admin_register "ContactDetail" None reg ;;
  reg <- admin_register "ContactPoint" None reg ;;
  admin_register "Extension" None reg.

(** ** How Django calls [from_db_value]

    [from_db_value] is declared as a [staticmethod] with the single
    parameter [value]. [Field.get_db_converters] returns
    [[self.from_db_value]] for a field that has the attribute, and the SQL
    compiler applies it to each fetched value as
    [converter(value, expression, connection)] (Django 2.x; Django 1.8 to
    1.11 also pass [context]). *)
Definition from_db_value_call (args : list pyval) : result (option pystr) :=
  d <- bind_pos ["value"]%string args [] ;;
  match kw_get "value"%string d with
  | Some VNone => Base64TextField_from_db_value None
  | Some (VStr s) => Base64TextField_from_db_value (Some s)
  | Some _ => Raise TypeError        (* b64decode of a non-string *)
  | None => Raise TypeError          (* missing required argument *)
  end.

Definition apply_converter (value expression connection : pyval) : result (option pystr) :=
  from_db_value_call [value; expression; connection].

(** ** Lemmas on keyword arguments and field construction *)

Lemma kw_get_del_same : forall k kw, kw_get k (kw_del k kw) = None.
Proof.
  intros k kw. induction kw as [|[k' v] kw IH]; [reflexivity |].
  cbn. destruct (String.eqb_spec k k') as [->|Hne]; cbn; [exact IH |].
  apply String.eqb_neq in Hne. rewrite Hne. exact IH.
Qed.

Lemma kw_get_del_other : forall k k' kw, k <> k' -> kw_get k (kw_del k' kw) = kw_get k kw.
Proof.
  intros k k' kw Hne. induction kw as [|[k0 v] kw IH]; [reflexivity |].
  cbn. destruct (String.eqb_spec k' k0) as [->|Hne']; cbn.
  - apply String.eqb_neq in Hne. rewrite Hne. exact IH.
  - destruct (String.eqb k k0); [reflexivity | exact IH].
Qed.

Lemma kw_get_set_same : forall k v kw, kw_get k (kw_set k v kw) = Some v.
Proof. intros. cbn. rewrite String.eqb_refl. reflexivity. Qed.

Lemma kw_get_set_other : forall k k' v kw, k <> k' -> kw_get k (kw_set k' v kw) = kw_get k kw.
Proof.
  intros k k' v kw Hne. cbn. apply String.eqb_neq in Hne as Hb. rewrite Hb.
  apply kw_get_del_other. exact Hne.
Qed.

Lemma kw_get_setdefault_keep : forall k k' v v' kw,
  kw_get k kw = Some v -> kw_get k (kw_setdefault k' v' kw) = Some v.
Proof.
  intros k k' v v' kw H. unfold kw_setdefault.
  destruct (kw_get k' kw) eqn:E; [exact H |].
  destruct (String.eqb_spec k k') as [->|Hne]; [congruence |].
  rewrite kw_get_set_other by exact Hne. exact H.
Qed.

Lemma bind_pos_keep : forall ps args kw d k v,
  bind_pos ps args kw = Ok d -> kw_get k kw = Some v -> kw_get k d = Some v.
Proof.
  intros ps args. revert ps. induction args as [|a args IH]; intros ps kw d k v Hb Hk.
  - destruct ps; cbn in Hb; injection Hb as <-; exact Hk.
  - destruct ps as [|p ps]; cbn in Hb; [discriminate |].
    destruct (kw_get p kw) eqn:Ep; [discriminate |].
    apply (IH ps _ _ _ _ Hb).
    destruct (String.eqb_spec k p) as [->|Hne]; [congruence |].
    rewrite kw_get_set_other by exact Hne. exact Hk.
Qed.

Lemma Field_init_spec : forall dv args kw f,
  Field_init dv args kw = Ok f ->
  (forall v, kw_get "max_length" kw = Some v -> f_max_length f = v) /\
  (forall v, kw_get "default" kw = Some v -> f_default f = Some v) /\
  (forall l, kw_get "validators" kw = Some (VValidators l) -> f_validators f = dv ++ l).
Proof.
  intros dv args kw f H. unfold Field_init in H.
  destruct (bind_pos Field_params args kw) as [d|e] eqn:Ed; cbn in H; [| discriminate].
  destruct (forallb _ d); [| discriminate].
  destruct (kw_get "validators" d) as [[]|] eqn:Ev; cbn in H; try discriminate;
    injection H as <-; cbn; repeat split.
  all: intros ? Hk; pose proof (bind_pos_keep _ _ _ _ _ _ Ed Hk) as Hd.
  all: unfold kw_get_or; rewrite ?Hd; congruence.
Qed.

Lemma CharField_init_spec : forall dv args kw f,
  CharField_init dv args kw = Ok f ->
  (forall v, kw_get "max_length" kw = Some v ->
     f_max_length f = v /\ In (MaxLengthValidator (as_int v)) (f_validators f)) /\
  (forall v, kw_get "default" kw = Some v -> f_default f = Some v) /\
  (forall l ml, kw_get "validators" kw = Some (VValidators l) ->
     kw_get "max_length" kw = Some ml ->
     f_validators f = dv ++ l ++ [MaxLengthValidator (as_int ml)]).
Proof.
  intros dv args kw f H. unfold CharField_init in H.
  destruct (Field_init dv args kw) as [f0|e] eqn:E; cbn in H; [| discriminate].
  injection H as <-. apply Field_init_spec in E as (Hm & Hd & Hv).
  cbn. split; [| split].
  - intros x Hk. split; [apply Hm; exact Hk |].
    rewrite (Hm x Hk). apply in_or_app. right. left. reflexivity.
  - intros x Hk. apply Hd. exact Hk.
  - intros l ml Hl Hml. rewrite (Hv l Hl), (Hm ml Hml), <- app_assoc. reflexivity.
Qed.

Lemma URLField_init_spec : forall args kw f,
  URLField_init args kw = Ok f ->
  (forall v, kw_get "max_length" kw = Some v ->
     f_max_length f = v /\ In (MaxLengthValidator (as_int v)) (f_validators f)) /\
  (forall l ml, kw_get "validators" kw = Some (VValidators l) ->
     kw_get "max_length" kw = Some ml ->
     f_validators f = URLValidator :: l ++ [MaxLengthValidator (as_int ml)]).
Proof.
  intros args kw f H. unfold URLField_init in H.
  destruct (bind_pos _ args kw) as [d|e] eqn:Ed; cbn [bind] in H; [| discriminate].
  apply CharField_init_spec in H as (Hm & _ & Hv).
  assert (Hkeep : forall k v, k <> "verbose_name"%string -> k <> "name"%string ->
            kw_get k kw = Some v ->
            kw_get k (kw_setdefault "max_length" (VInt 200)
                        (kw_del "name" (kw_del "verbose_name" d))) = Some v).
  { intros k v H1 H2 Hk. apply kw_get_setdefault_keep.
    rewrite !kw_get_del_other by assumption. exact (bind_pos_keep _ _ _ _ _ _ Ed Hk). }
  split.
  - intros v Hk. apply Hm, Hkeep; [discriminate | discriminate | exact Hk].
  - intros l ml Hl Hml. apply Hv; apply Hkeep; (discriminate || assumption).
Qed.

Lemma UriField_init_spec : forall args kw f,
  UriField_init args kw = Ok f ->
  f_max_length f = VInt 255 /\ In (MaxLengthValidator (Some 255)) (f_validators f).
Proof.
  intros args kw f H. apply URLField_init_spec in H as (Hm & _).
  apply Hm, kw_get_set_same.
Qed.

Lemma OidField_init_spec : forall args kw f,
  OidField_init args kw = Ok f ->
  f_validators f = [URLValidator; RegexValidator oid_regex; MaxLengthValidator (Some 255)].
Proof.
  intros args kw f H. apply URLField_init_spec in H as (_ & Hv).
  rewrite (Hv [RegexValidator oid_regex] (VInt 255)); [reflexivity | |].
  - rewrite kw_get_set_other by discriminate. apply kw_get_set_same.
  - apply kw_get_set_same.
Qed.

Lemma CodeField_init_spec : forall args kw f,
  CodeField_init args kw = Ok f ->
  f_max_length f = VInt 64 /\ In (MaxLengthValidator (Some 64)) (f_validators f).
Proof.
  intros args kw f H. unfold CodeField_init in H.
  destruct (bind_pos _ (firstn 1 args) kw) as [d|e]; cbn [bind] in H; [| discriminate].
  destruct (CharField_init _ _ _) as [f0|e] eqn:E; cbn [bind] in H; [| discriminate].
  injection H as <-. apply CharField_init_spec in E as (Hm & _).
  apply Hm, kw_get_set_same.
Qed.

Lemma IdField_init_spec : forall args kw g f g',
  IdField_init args kw g = (Ok f, g') ->
  f_max_length f = VInt 64 /\ In (MaxLengthValidator (Some 64)) (f_validators f) /\
  f_default f = Some (VUUID g) /\ g' = g + 1.
Proof.
  intros args kw g f g' H. unfold IdField_init, uuid4 in H.
  injection H as H <-. apply CharField_init_spec in H as (Hm & Hd & _).
  destruct (Hm (VInt 64)) as [H1 H2].
  { rewrite kw_get_set_other by discriminate. apply kw_get_set_same. }
  repeat split; try assumption. apply Hd, kw_get_set_same.
Qed.

Lemma ForeignKey_init_to : forall args kw fk v,
  ForeignKey_init args kw = Ok fk -> kw_get "to" kw = Some v -> fk_to fk = v.
Proof.
  intros args kw fk v H Hk. unfold ForeignKey_init in H.
  destruct (bind_pos _ args kw) as [d|e] eqn:Ed; cbn [bind] in H; [| discriminate].
  rewrite (bind_pos_keep _ _ _ _ _ _ Ed Hk) in H.
  destruct (kw_get "on_delete" d); [| discriminate].
  destruct (Field_init _ _ _); cbn [bind] in H; [| discriminate].
  injection H as <-. reflexivity.
Qed.

Lemma ReferenceField_init_to : forall args kw fk,
  ReferenceField_init args kw = Ok fk -> fk_to fk = VStr (s2l "Reference").
Proof.
  intros args kw fk H. unfold ReferenceField_init in H.
  destruct (bind_pos _ (firstn 2 args) kw) as [d|e]; cbn [bind] in H; [| discriminate].
  destruct (kw_get "to" d) as [to|]; [| discriminate].
  destruct (kw_get "on_delete" d) as [od|]; [| discriminate].
  destruct (ForeignKey_init _ _) as [fk0|e] eqn:E; cbn [bind] in H; [| discriminate].
  injection H as <-. cbn. apply (ForeignKey_init_to _ _ _ _ E).
  rewrite kw_get_set_other by discriminate. apply kw_get_set_same.
Qed.

(** ** Validation lemmas *)

Lemma validate_result : forall f v,
  validate f v = Ok tt \/ validate f v = Raise ValidationError.
Proof.
  intros f v. unfold validate.
  destruct (f_choices f); destruct v as [v|]; cbn -[pystr_eqb];
    repeat match goal with |- context [if ?b then _ else _] => destruct b end;
    auto.
Qed.

Lemma run_validators_loop_errors : forall R vs x,
  ~ In (MaxLengthValidator None) vs ->
  run_validators_loop R vs x true = Raise ValidationError.
Proof.
  intros R vs x. induction vs as [|v vs IH]; intros Hn; [reflexivity|].
  assert (Hn' : ~ In (MaxLengthValidator None) vs) by (intro; apply Hn; right; assumption).
  destruct v as [r | [n|] | ]; cbn [run_validators_loop run_validator].
  - destruct (re_search r x); apply IH; assumption.
  - destruct (n <? Zlen x); apply IH; assumption.
  - exfalso. apply Hn. left. reflexivity.
  - unfold URLValidator_call.
    destruct (negb _); [apply IH; assumption|].
    destruct (R x); apply IH; assumption.
Qed.

Lemma split_scheme_cons : forall c s, c <> 58 ->
  split_scheme (c :: s) = c :: split_scheme s.
Proof.
  intros c s H. destruct s as [|c2 [|c3 s]]; try reflexivity.
  cbn [split_scheme]. rewrite (proj2 (Z.eqb_neq c 58) H). reflexivity.
Qed.

(** A value whose first character is a digit [0-2] has no accepted scheme. *)
Lemma URLValidator_digit : forall R c rest, 48 <= c <= 50 ->
  URLValidator_call R (c :: rest) = Raise ValidationError.
Proof.
  intros R c rest Hc. unfold URLValidator_call.
  rewrite split_scheme_cons by lia. unfold ascii_lower. cbn [map].
  replace ((65 <=? c) && (c <=? 90)) with false
    by (symmetry; apply andb_false_iff; left; apply Z.leb_gt; lia).
  destruct (existsb _ url_schemes) eqn:E; [|reflexivity].
  apply existsb_exists in E as (s & Hin & Heq). apply pystr_eqb_eq in Heq.
  assert (Hs : exists d t, s = d :: t /\ (d = 104 \/ d = 102)).
  { cbn [url_schemes In] in Hin.
    destruct Hin as [<-|[<-|[<-|[<-|[]]]]]; do 2 eexists; split;
      (reflexivity || (left; reflexivity) || (right; reflexivity)). }
  destruct Hs as (d & t & -> & Hd). injection Heq as Hcd _. lia.
Qed.

Lemma oid_fullmatch_head : forall v, re_fullmatch oid_regex v = true ->
  exists c rest, v = c :: rest /\ 48 <= c <= 50.
Proof.
  intros [|c rest] H; [discriminate|].
  unfold re_fullmatch, oid_regex in H. cbn [re_match] in H.
  apply andb_true_iff in H as [H _]. apply andb_true_iff in H as [H1 H2].
  apply Z.leb_le in H1. apply Z.leb_le in H2. eauto.
Qed.

Lemma clean_raises_validation : forall R f x,
  x <> [] -> ~ In (MaxLengthValidator None) (f_validators f) ->
  (exists v vs, f_validators f = v :: vs /\ run_validator R v x = Raise ValidationError) ->
  clean R f (Some x) = Raise ValidationError.
Proof.
  intros R f x Hx Hn (v & vs & Hvs & Hv). unfold clean.
  destruct (validate_result f (Some x)) as [E|E]; rewrite E; [|reflexivity].
  cbn [bind]. unfold run_validators.
  replace (is_empty_value (Some x)) with false by (destruct x; [congruence | reflexivity]).
  rewrite Hvs. cbn [run_validators_loop]. rewrite Hv.
  rewrite run_validators_loop_errors; [reflexivity|].
  intro; apply Hn; rewrite Hvs; right; assumption.
Qed.

Lemma validate_no_choices : forall f x, f_choices f = [] -> x <> [] ->
  validate f (Some x) = Ok tt.
Proof.
  intros f x Hc Hx. unfold validate. rewrite Hc.
  destruct x; [congruence|]. destruct (f_blank f); reflexivity.
Qed.

Lemma validate_choices : forall f x c cs, f_choices f = c :: cs -> x <> [] ->
  validate f (Some x) =
  if existsb (fun '(key, _) => pystr_eqb x key) (c :: cs) then Ok tt else Raise ValidationError.
Proof.
  intros f x c cs Hc Hx. unfold validate. rewrite Hc.
  destruct x; [congruence|]. destruct (existsb _ _); reflexivity.
Qed.

Lemma existsb_choices_In : forall (x : pystr) (cs : list (pystr * pystr)),
  existsb (fun '(key, _) => pystr_eqb x key) cs = true <-> In x (map fst cs).
Proof.
  intros x cs. induction cs as [|[k l] cs IH]; cbn; [split; [discriminate | tauto]|].
  rewrite orb_true_iff, pystr_eqb_eq, IH. split; intros [H|H]; auto.
Qed.

Lemma run_validators_max64 : forall R f x,
  f_validators f = [MaxLengthValidator (Some 64)] -> x <> [] -> Zlen x <= 64 ->
  run_validators R f (Some x) = Ok tt.
Proof.
  intros R f x Hv Hx Hl. unfold run_validators.
  replace (is_empty_value (Some x)) with false by (destruct x; [congruence | reflexivity]).
  rewrite Hv. cbn [run_validators_loop run_validator].
  replace (64 <? Zlen x) with false by (symmetry; apply Z.ltb_ge; lia).
  reflexivity.
Qed.

(** * Properties of the fields and models *)

(** C9: the constructors of [UriField], [CodeField] and [IdField] overwrite
    any [max_length] the caller passes: every [UriField] that is built has
    [max_length] 255, every [CodeField] and [IdField] has 64. *)
Theorem fields_override_max_length :
  (forall args kw f, UriField_init args kw = Ok f -> f_max_length f = VInt 255) /\
  (forall args kw f, CodeField_init args kw = Ok f -> f_max_length f = VInt 64) /\
  (forall args kw g f g', IdField_init args kw g = (Ok f, g') -> f_max_length f = VInt 64).
Proof.
  split; [| split].
  - intros args kw f H. apply (UriField_init_spec _ _ _ H).
  - intros args kw f H. apply (CodeField_init_spec _ _ _ H).
  - intros args kw g f g' H. apply (IdField_init_spec _ _ _ _ _ H).
Qed.

Lemma fields_override_max_length_witness :
  (exists f, UriField_init [] [("max_length"%string, VInt 10)] = Ok f /\ f_max_length f = VInt 255) /\
  (exists f, CodeField_init [] [("max_length"%string, VInt 10)] = Ok f /\ f_max_length f = VInt 64) /\
  (exists f, IdField_init [] [("max_length"%string, VInt 10)] 0 = (Ok f, 1) /\ f_max_length f = VInt 64).
Proof.
  split; [| split]; eexists; split; [reflexivity | | reflexivity | | reflexivity |].
  - apply (proj1 fields_override_max_length [] [("max_length"%string, VInt 10)]). reflexivity.
  - apply (proj1 (proj2 fields_override_max_length) [] [("max_length"%string, VInt 10)]).
    reflexivity.
  - apply (proj2 (proj2 fields_override_max_length) [] [("max_length"%string, VInt 10)] 0 _ 1).
    reflexivity.
Defined.

(** C5: whatever target is passed as [to] (a model, a name, or a
    disjunction of names such as ["Organization|Practitioner"]), a
    [ReferenceField] that is built is a foreign key to the model
    [Reference], and that is the model it resolves to. *)
Theorem ReferenceField_targets_Reference : forall args kw fk,
  ReferenceField_init args kw = Ok fk ->
  fk_to fk = VStr (s2l "Reference") /\ related_model fk = Some "Reference"%string.
Proof.
  intros args kw fk H. pose proof (ReferenceField_init_to _ _ _ H) as Hto.
  split; [exact Hto|]. unfold related_model. rewrite Hto. reflexivity.
Qed.

Lemma ReferenceField_targets_Reference_witness :
  exists fk, Patient_generalPractitioner = Ok fk /\
    fk_to fk = VStr (s2l "Reference") /\ related_model fk = Some "Reference"%string.
Proof.
  eexists. split; [reflexivity|].
  apply (ReferenceField_targets_Reference
           [VStr (s2l "Organization|Practitioner")]
           [("on_delete"%string, VOnDelete SET_NULL); ("null"%string, VBool true);
            ("related_name"%string, VStr (s2l "+"))]).
  reflexivity.
Defined.

(** C2: an [IdField] has [max_length] 64 and a [MaxLengthValidator(64)],
    but its default is the single [uuid4()] drawn when the field is
    constructed: [get_default] returns that same value, and leaves the
    generator untouched, for every object created afterwards. *)
Theorem IdField_default_is_constant : forall args kw g f g',
  IdField_init args kw g = (Ok f, g') ->
  f_max_length f = VInt 64 /\ In (MaxLengthValidator (Some 64)) (f_validators f) /\
  forall g1, get_default f g1 = (VUUID g, g1).
Proof.
  intros args kw g f g' H.
  destruct (IdField_init_spec _ _ _ _ _ H) as (Hm & Hv & Hd & _).
  split; [exact Hm | split; [exact Hv|]].
  intros g1. unfold get_default. rewrite Hd. reflexivity.
Qed.

Lemma IdField_default_is_constant_witness :
  exists f, Meta_versionId 0 = (Ok f, 1) /\
    get_default f 5 = (VUUID 0, 5) /\ get_default f 6 = (VUUID 0, 6).
Proof.
  eexists. split; [reflexivity|].
  pose proof (IdField_default_is_constant [] [("primary_key"%string, VBool true)] 0 _ 1
                eq_refl) as (_ & _ & Hd).
  split; apply Hd.
Defined.

(** C3: an [OidField] rejects every string that matches its OID pattern
    [[0-2](\.[1-9]\d* )+] in full: it inherits [URLValidator] from
    [URLField], whose scheme check fails on a value starting with a digit,
    so [clean] raises [ValidationError] whatever the rest of the URL check
    says. *)
Theorem OidField_rejects_every_oid : forall url_rest_ok args kw f v,
  OidField_init args kw = Ok f -> re_fullmatch oid_regex v = true ->
  clean url_rest_ok f (Some v) = Raise ValidationError.
Proof.
  intros R args kw f v Hf Hm. apply OidField_init_spec in Hf.
  destruct (oid_fullmatch_head v Hm) as (c & rest & -> & Hc).
  apply clean_raises_validation.
  - discriminate.
  - rewrite Hf. cbn [In]. intros [H|[H|[H|[]]]]; discriminate.
  - exists URLValidator, [RegexValidator oid_regex; MaxLengthValidator (Some 255)].
    split; [exact Hf|]. apply URLValidator_digit. exact Hc.
Qed.

Lemma OidField_rejects_every_oid_witness :
  exists f, OidField_init [] [] = Ok f /\ re_fullmatch oid_regex (s2l "1.2.3") = true /\
    clean (fun _ => true) f (Some (s2l "1.2.3")) = Raise ValidationError.
Proof.
  eexists. split; [reflexivity|]. split; [reflexivity|].
  apply (OidField_rejects_every_oid (fun _ => true) [] []); reflexivity.
Defined.

(** C4: [ValueSet.status] is [CodeField("PublicationStatus")]: the name
    only lands in [value_set] and the field has no choices, so any
    non-empty code of at most 64 characters passes [clean]; with
    [choices=PUBLICATION_STATUS], [StructureDefinition.status] accepts such
    a code exactly when it is one of draft, active, retired, unknown. *)
Theorem ValueSet_status_accepts_any_code : forall url_rest_ok v,
  v <> [] -> Zlen v <= 64 ->
  (exists f, ValueSet_status = Ok f /\ clean url_rest_ok f (Some v) = Ok (Some v)) /\
  (exists f, StructureDefinition_status = Ok f /\
     (clean url_rest_ok f (Some v) = Ok (Some v) <-> In v (map fst PUBLICATION_STATUS))).
Proof.
  intros R v Hv Hl. split.
  - assert (E : exists f, ValueSet_status = Ok f /\ f_choices f = [] /\
                  f_validators f = [MaxLengthValidator (Some 64)])
      by (eexists; split; [reflexivity | split; reflexivity]).
    destruct E as (f & E & Hc & Hvs). exists f. split; [exact E|].
    unfold clean. rewrite validate_no_choices by assumption. cbn [bind].
    rewrite run_validators_max64 by assumption. reflexivity.
  - assert (E : exists f, StructureDefinition_status = Ok f /\
                  f_choices f = PUBLICATION_STATUS /\
                  f_validators f = [MaxLengthValidator (Some 64)])
      by (eexists; split; [reflexivity | split; reflexivity]).
    destruct E as (f & E & Hc & Hvs). exists f. split; [exact E|].
    unfold clean. unfold PUBLICATION_STATUS in Hc.
    rewrite (validate_choices _ _ _ _ Hc Hv). rewrite <- existsb_choices_In.
    unfold PUBLICATION_STATUS.
    destruct (existsb _ _); cbn [bind].
    + rewrite run_validators_max64 by assumption. split; reflexivity.
    + split; discriminate.
Qed.

Lemma ValueSet_status_accepts_any_code_witness :
  (exists f, ValueSet_status = Ok f /\
     clean (fun _ => true) f (Some (s2l "bogus")) = Ok (Some (s2l "bogus"))) /\
  (exists f, StructureDefinition_status = Ok f /\
     (clean (fun _ => true) f (Some (s2l "bogus")) = Ok (Some (s2l "bogus")) <->
      In (s2l "bogus") (map fst PUBLICATION_STATUS))).
Proof.
  apply ValueSet_status_accepts_any_code; [discriminate | vm_compute; discriminate].
Defined.

(** C1: a stored value made by [b64encode(text.encode("utf-8"))] from a
    text of Unicode scalar values decodes back to that text, a stored
    [None] gives [None], and the field has no encoding step on the way to
    the database ([get_prep_value] returns the value unchanged). *)
Theorem Base64TextField_from_db_value_roundtrip : forall t,
  forallb valid_scalar t = true ->
  Base64TextField_from_db_value (Some (b64encode (utf8_encode t))) = Ok (Some t) /\
  Base64TextField_from_db_value None = Ok None /\
  (forall v, Base64TextField_get_prep_value v = v).
Proof.
  intros t Ht. split; [| split; [reflexivity | reflexivity]].
  cbn [Base64TextField_from_db_value].
  rewrite b64decode_b64encode by (apply utf8_encode_bytes; exact Ht). cbn [bind].
  rewrite utf8_decode_encode by exact Ht. reflexivity.
Qed.

Lemma Base64TextField_from_db_value_roundtrip_witness :
  Base64TextField_from_db_value (Some (b64encode (utf8_encode [104; 233; 108; 108; 111])))
    = Ok (Some [104; 233; 108; 108; 111]) /\
  Base64TextField_from_db_value None = Ok None /\
  (forall v, Base64TextField_get_prep_value v = v).
Proof.
  apply Base64TextField_from_db_value_roundtrip. reflexivity.
Defined.

(** C10: [from_db_value] raises on malformed stored values: ["/w=="] is
    base64 for the byte 0xFF, which is not UTF-8; ["YQ"] lacks its padding;
    a non-ASCII character is refused by [b64decode]. *)
Theorem Base64TextField_from_db_value_partial :
  Base64TextField_from_db_value (Some (s2l "/w==")) = Raise UnicodeDecodeError /\
  Base64TextField_from_db_value (Some (s2l "YQ")) = Raise BinasciiError /\
  Base64TextField_from_db_value (Some [233]) = Raise ValueError.
Proof.
  split; [| split]; reflexivity.
Qed.

(** C6 (counterexample): a [Reference] with empty [references], no
    [identifier] and empty [display] is stored in the empty database. *)
Lemma Reference_empty_saved :
  Reference_save (mkDB [] []) (mkReference 1 [] None []) =
  Ok (mkDB [] [mkReference 1 [] None []]).
Proof. reflexivity. Qed.

(** C6: the at-least-one constraint on [Reference] is not enforced:
    saving a [Reference] whose [references] and [display] are empty and
    whose [identifier] is null stores it, in any database state. *)
Theorem Reference_save_all_absent : forall db pk,
  Reference_save db (mkReference pk [] None []) =
  Ok (mkDB (identifier_rows db)
           (mkReference pk [] None [] ::
            filter (fun r' => negb (ref_pk r' =? pk)) (reference_rows db))).
Proof.
  intros db pk. reflexivity.
Qed.

(** C7: [Reference.validate_unique] is a no-op: for every [exclude] and
    every database and instance it returns without an error and changes
    nothing. *)
Theorem Reference_validate_unique_noop : forall exclude s,
  Reference_validate_unique exclude s = (Ok tt, s).
Proof.
  intros exclude s. reflexivity.
Qed.

(** [Model.validate_unique], which the override replaces, does report a
    duplicate primary key. *)
Example Model_validate_unique_duplicate :
  Model_validate_unique true None
    (mkDB [] [mkReference 1 [] None []], mkReference 1 [] None []) =
  (Raise ValidationError, (mkDB [] [mkReference 1 [] None []], mkReference 1 [] None [])).
Proof. reflexivity. Qed.

(** C8: [admin.py] registers exactly ten distinct models, Resource,
    DomainResource, Coding, Period, StructureDefinition, Identifier,
    ValueSet, ContactDetail, ContactPoint and Extension, each with the
    default [ModelAdmin] (no list, filter or search option). *)
Theorem admin_registers_ten_models :
  admin_module [] =
    Ok (map (fun m => (m, default_ModelAdmin))
            ["Resource"; "DomainResource"; "Coding"; "Period"; "StructureDefinition";
             "Identifier"; "ValueSet"; "ContactDetail"; "ContactPoint"; "Extension"]%string) /\
  List.length ["Resource"; "DomainResource"; "Coding"; "Period"; "StructureDefinition";
               "Identifier"; "ValueSet"; "ContactDetail"; "ContactPoint"; "Extension"]%string = 10%nat /\
  NoDup ["Resource"; "DomainResource"; "Coding"; "Period"; "StructureDefinition";
         "Identifier"; "ValueSet"; "ContactDetail"; "ContactPoint"; "Extension"]%string /\
  list_display default_ModelAdmin = ["__str__"%string] /\
  list_filter default_ModelAdmin = [] /\ search_fields default_ModelAdmin = [].
Proof.
  split; [reflexivity|]. split; [reflexivity|].
  split; [| split; [| split]; reflexivity].
  repeat constructor; cbn [In]; intuition discriminate.
Qed.

(** * Further properties of the code *)

(** ** Decoding a stored base64 value *)


Lemma a2b_data_prefix : forall q lc p out o v,
  a2b_data (mk_a2b q lc p (out ++ o)) v =
  let st := a2b_data (mk_a2b q lc p o) v in
  mk_a2b (quad_pos st) (leftchar st) (pads st) (out ++ bin_data st).
Proof.
  intros q lc p out o v. unfold a2b_data. cbn [quad_pos leftchar pads bin_data].
  destruct (q =? 0); [reflexivity|].
  destruct (q =? 1); [cbn; rewrite app_assoc; reflexivity|].
  destruct (q =? 2); cbn; rewrite app_assoc; reflexivity.
Qed.

Definition prefix_r {A} (out : list A) (r : result (list A)) : result (list A) :=
  match r with Ok l => Ok (out ++ l) | Raise e => Raise e end.

Lemma a2b_loop_prefix : forall s q lc p out o,
  a2b_loop (mk_a2b q lc p (out ++ o)) s = prefix_r out (a2b_loop (mk_a2b q lc p o) s).
Proof.
  induction s as [|c s IH]; intros q lc p out o; cbn [a2b_loop quad_pos leftchar pads bin_data].
  - destruct (q =? 0); reflexivity.
  - destruct (c =? BASE64_PAD).
    + destruct (2 <=? q); [|apply IH].
      destruct (4 <=? q + (p + 1)); [reflexivity | apply IH].
    + destruct (64 <=? table_a2b_base64 c); [apply IH|].
      rewrite a2b_data_prefix. cbv zeta. destruct (a2b_data _ _) as [q' lc' p' o'].
      cbn [quad_pos leftchar pads bin_data]. apply IH.
Qed.

Lemma a2b_loop_q0 : forall s lc p out,
  a2b_loop (mk_a2b 0 lc p out) s = a2b_loop (mk_a2b 0 0 0 out) s.
Proof.
  induction s as [|c s IH]; intros lc p out; cbn [a2b_loop quad_pos].
  - reflexivity.
  - destruct (c =? BASE64_PAD); [apply IH|].
    destruct (64 <=? table_a2b_base64 c); [apply IH | reflexivity].
Qed.

(** Decoding [b64encode bs] followed by more characters: an encoding
    without padding leaves the decoder where it started, a padded one ends
    the decoding. *)
Lemma a2b_loop_b64encode_app : forall n bs out rest,
  (List.length bs <= n)%nat -> forallb is_byte bs = true ->
  a2b_loop (mk_a2b 0 0 0 out) (b64encode bs ++ rest) =
  if (Z.of_nat (List.length bs) mod 3 =? 0) then a2b_loop (mk_a2b 0 0 0 (out ++ bs)) rest
  else Ok (out ++ bs).
Proof.
  induction n as [|n IH]; intros bs out rest Hlen Hb.
  - destruct bs; [| simpl in Hlen; lia]. cbn. rewrite app_nil_r. reflexivity.
  - destruct bs as [|b0 [|b1 [|b2 bs]]]; cbn [forallb] in Hb; unfold is_byte in Hb;
      rewrite ?andb_true_iff, ?Z.leb_le, ?Z.ltb_lt in Hb.
    + cbn. rewrite app_nil_r. reflexivity.
    + destruct Hb as [[? ?] _]. cbn [b64encode app].
      rewrite !a2b_loop_data by zlia.
      unfold a2b_data; cbn [quad_pos leftchar pads bin_data Z.eqb Pos.eqb].
      rewrite a2b_loop_pad2. cbn [app List.length].
      change (Z.of_nat 1 mod 3 =? 0) with false. cbv iota beta.
      repeat f_equal. a2b_arith.
    + destruct Hb as [[? ?] [[? ?] _]]. cbn [b64encode app].
      rewrite !a2b_loop_data by zlia.
      unfold a2b_data; cbn [quad_pos leftchar pads bin_data Z.eqb Pos.eqb].
      rewrite a2b_loop_pad3, <- app_assoc. cbn [app List.length].
      change (Z.of_nat 2 mod 3 =? 0) with false. cbv iota beta.
      repeat f_equal; a2b_arith.
    + destruct Hb as [[? ?] [[? ?] [[? ?] Hrest]]]. cbn [b64encode].
      rewrite <- app_assoc. rewrite a2b_loop_group by lia.
      rewrite IH by (simpl in Hlen; lia || exact Hrest).
      replace (Z.of_nat (List.length (b0 :: b1 :: b2 :: bs)) mod 3)
        with (Z.of_nat (List.length bs) mod 3)
        by (cbn [List.length]; rewrite !Nat2Z.inj_succ; zlia).
      rewrite <- app_assoc. reflexivity.
Qed.

Lemma cons_r_ok : forall {A} (x : A) r t, cons_r x r = Ok t -> exists t', r = Ok t' /\ t = x :: t'.
Proof.
  intros A x [l|e] t H; cbn in H; [| discriminate].
  injection H as <-. eauto.
Qed.

Ltac bool_facts :=
  repeat match goal with
  | H : (_ && _) = true |- _ => apply andb_true_iff in H as [? ?]
  | H : (_ && _) = false |- _ => apply andb_false_iff in H as [?|?]
  | H : negb _ = true |- _ => apply negb_true_iff in H
  | H : negb _ = false |- _ => apply negb_false_iff in H
  | H : (_ <? _) = true |- _ => apply Z.ltb_lt in H
  | H : (_ <? _) = false |- _ => apply Z.ltb_ge in H
  | H : (_ <=? _) = true |- _ => apply Z.leb_le in H
  | H : (_ <=? _) = false |- _ => apply Z.leb_gt in H
  | H : (_ =? _) = true |- _ => apply Z.eqb_eq in H
  | H : (_ =? _) = false |- _ => apply Z.eqb_neq in H
  | H : IS_CONTINUATION_BYTE _ = _ |- _ => unfold IS_CONTINUATION_BYTE in H
  end.

Ltac tail_bytes Hb :=
  let H' := fresh in pose proof Hb as H'; cbn [forallb] in H';
  rewrite ?andb_true_iff in H'; tauto.

Ltac utf8_step IH Hl Hb :=
  let H := fresh in let t' := fresh "t'" in let E := fresh in
  intros H; apply cons_r_ok in H as (t' & E & ->);
  let V := fresh in let Enc := fresh in
  match type of E with
  | utf8_decode ?r = _ =>
      destruct (IH r t' ltac:(cbn [List.length] in Hl; lia) ltac:(tail_bytes Hb) E) as [V Enc]
  end;
  bool_facts;
  (split;
  [ cbn [forallb]; rewrite V, andb_true_r; apply valid_scalar_spec;
    rewrite ?shl6, ?shl12, ?shl18; lia
  | cbn [utf8_encode flat_map]; fold (utf8_encode t'); rewrite Enc;
    unfold utf8_encode_char; rewrite ?shl6, ?shl12, ?shl18; zsplit;
    cbn [app]; repeat f_equal; zlia ]).

(** The strict decoder accepts only canonical UTF-8: what it returns is a
    sequence of Unicode scalar values whose encoding is the input. *)
Lemma utf8_decode_canonical : forall n bs t,
  (List.length bs <= n)%nat -> forallb is_byte bs = true ->
  utf8_decode bs = Ok t -> forallb valid_scalar t = true /\ utf8_encode t = bs.
Proof.
  induction n as [|n IH]; intros bs t Hl Hb.
  - destruct bs; [intros H; injection H as <-; split; reflexivity | cbn in Hl; lia].
  - destruct bs as [|ch r0]; [intros H; injection H as <-; split; reflexivity|].
    pose proof Hb as Hbs. cbn [forallb] in Hbs. unfold is_byte in Hbs.
    rewrite !andb_true_iff, Z.leb_le, Z.ltb_lt in Hbs. destruct Hbs as [Hch _].
    cbn [utf8_decode].
    destruct (Z.ltb_spec ch 128); [utf8_step IH Hl Hb|].
    destruct (Z.ltb_spec ch 224).
    { destruct (Z.ltb_spec ch 194); [intros ?; discriminate|].
      destruct r0 as [|ch2 r1]; [intros ?; discriminate|].
      pose proof Hb as Hbs. cbn [forallb] in Hbs. unfold is_byte in Hbs.
      rewrite !andb_true_iff, !Z.leb_le, !Z.ltb_lt in Hbs.
      destruct (IS_CONTINUATION_BYTE ch2) eqn:C2; [|intros ?; discriminate].
      utf8_step IH Hl Hb. }
    destruct (Z.ltb_spec ch 240).
    { destruct r0 as [|ch2 [|ch3 r2]]; try (intros ?; discriminate).
      pose proof Hb as Hbs. cbn [forallb] in Hbs. unfold is_byte in Hbs.
      rewrite !andb_true_iff, !Z.leb_le, !Z.ltb_lt in Hbs.
      destruct (negb (IS_CONTINUATION_BYTE ch2)) eqn:C2; [intros ?; discriminate|].
      destruct ((ch =? 224) && (ch2 <? 160)) eqn:C3; [intros ?; discriminate|].
      destruct ((ch =? 237) && (160 <=? ch2)) eqn:C4; [intros ?; discriminate|].
      destruct (negb (IS_CONTINUATION_BYTE ch3)) eqn:C5; [intros ?; discriminate|].
      utf8_step IH Hl Hb. }
    destruct (Z.ltb_spec ch 245); [|intros ?; discriminate].
    destruct r0 as [|ch2 [|ch3 [|ch4 r3]]]; try (intros ?; discriminate).
    pose proof Hb as Hbs. cbn [forallb] in Hbs. unfold is_byte in Hbs.
    rewrite !andb_true_iff, !Z.leb_le, !Z.ltb_lt in Hbs.
    destruct (negb (IS_CONTINUATION_BYTE ch2)) eqn:C2; [intros ?; discriminate|].
    destruct ((ch =? 240) && (ch2 <? 144)) eqn:C3; [intros ?; discriminate|].
    destruct ((ch =? 244) && (144 <=? ch2)) eqn:C4; [intros ?; discriminate|].
    destruct (negb (IS_CONTINUATION_BYTE ch3)) eqn:C5; [intros ?; discriminate|].
    destruct (negb (IS_CONTINUATION_BYTE ch4)) eqn:C6; [intros ?; discriminate|].
    utf8_step IH Hl Hb.
Qed.

Lemma a2b_data_bytes : forall st v, forallb is_byte (bin_data st) = true ->
  forallb is_byte (bin_data (a2b_data st v)) = true.
Proof.
  intros st v H. unfold a2b_data.
  assert (Hx : forall x, is_byte (Z.land x 255) = true).
  { intros x. rewrite land_255. unfold is_byte.
    pose proof (Z.mod_pos_bound x 256 ltac:(lia)). zsplit; reflexivity. }
  destruct (quad_pos st =? 0); [exact H|].
  destruct (quad_pos st =? 1); [|destruct (quad_pos st =? 2)];
    cbn [bin_data]; rewrite forallb_app, H; cbn [forallb]; rewrite Hx; reflexivity.
Qed.

Lemma a2b_loop_bytes : forall s st out, forallb is_byte (bin_data st) = true ->
  a2b_loop st s = Ok out -> forallb is_byte out = true.
Proof.
  induction s as [|c s IH]; intros st out Hst H; cbn [a2b_loop] in H.
  - destruct (quad_pos st =? 0); [injection H as <-; exact Hst | discriminate].
  - destruct (c =? BASE64_PAD).
    + destruct (2 <=? quad_pos st); [|exact (IH _ _ Hst H)].
      destruct (4 <=? _); [injection H as <-; exact Hst | eapply IH; [| exact H]; exact Hst].
    + destruct (64 <=? table_a2b_base64 c); [exact (IH _ _ Hst H)|].
      exact (IH _ _ (a2b_data_bytes _ _ Hst) H).
Qed.

Lemma utf8_decode_app : forall t b, forallb valid_scalar t = true ->
  utf8_decode (utf8_encode t ++ b) = prefix_r t (utf8_decode b).
Proof.
  induction t as [|c t IH]; intros b Ht.
  - cbn. destruct (utf8_decode b); reflexivity.
  - cbn [forallb] in Ht. apply andb_true_iff in Ht as [Hc Ht].
    cbn [utf8_encode flat_map]. fold (utf8_encode t). rewrite <- app_assoc.
    rewrite utf8_decode_char by exact Hc. rewrite IH by exact Ht.
    destruct (utf8_decode b); reflexivity.
Qed.



(** When the UTF-8 encoding of a text has a length that is not a multiple
    of 3, its base64 form ends in padding, and from_db_value ignores
    whatever ASCII characters follow it. *)
Theorem from_db_value_ignores_after_padding : forall t rest,
  forallb valid_scalar t = true -> Zlen (utf8_encode t) mod 3 <> 0 ->
  forallb (fun c => c <? 128) rest = true ->
  Base64TextField_from_db_value (Some (b64encode (utf8_encode t) ++ rest)) = Ok (Some t).
Proof.
  intros t rest Ht Hm Hr. cbn [Base64TextField_from_db_value]. unfold b64decode.
  rewrite forallb_app, b64encode_ascii, Hr. cbn [andb]. unfold a2b_base64.
  rewrite (a2b_loop_b64encode_app (List.length (utf8_encode t))) by
    (lia || apply utf8_encode_bytes; exact Ht).
  unfold Zlen in Hm. rewrite (proj2 (Z.eqb_neq _ 0) Hm). cbn [app bind].
  rewrite utf8_decode_encode by exact Ht. reflexivity.
Qed.

Lemma from_db_value_ignores_after_padding_witness :
  Base64TextField_from_db_value (Some (b64encode (utf8_encode [97]) ++ s2l "garbage"))
  = Ok (Some [97]).
Proof.
  apply from_db_value_ignores_after_padding; [reflexivity | discriminate | reflexivity].
Defined.

(** When the UTF-8 encoding of a text [t1] has a length that is a multiple
    of 3, its base64 form has no padding, and from_db_value of that form
    followed by an ASCII string [s2] is [t1] followed by from_db_value of
    [s2], or the same error. *)
Theorem from_db_value_concat : forall t1 s2,
  forallb valid_scalar t1 = true -> Zlen (utf8_encode t1) mod 3 = 0 ->
  forallb (fun c => c <? 128) s2 = true ->
  Base64TextField_from_db_value (Some (b64encode (utf8_encode t1) ++ s2)) =
  match Base64TextField_from_db_value (Some s2) with
  | Ok (Some t2) => Ok (Some (t1 ++ t2))
  | r => r
  end.
Proof.
  intros t1 s2 Ht Hm Hs. cbn [Base64TextField_from_db_value]. unfold b64decode.
  rewrite forallb_app, b64encode_ascii, Hs. cbn [andb]. unfold a2b_base64.
  rewrite (a2b_loop_b64encode_app (List.length (utf8_encode t1))) by
    (lia || apply utf8_encode_bytes; exact Ht).
  unfold Zlen in Hm. rewrite Hm. cbn [Z.eqb app].
  rewrite <- (app_nil_r (utf8_encode t1)) at 1. rewrite a2b_loop_prefix.
  destruct (a2b_loop (mk_a2b 0 0 0 []) s2) as [b|e]; [|reflexivity].
  cbn [prefix_r bind]. rewrite utf8_decode_app by exact Ht.
  destruct (utf8_decode b); reflexivity.
Qed.

Lemma from_db_value_concat_witness :
  Base64TextField_from_db_value (Some (b64encode (utf8_encode (s2l "abc")) ++ s2l "ZGVm")) =
  match Base64TextField_from_db_value (Some (s2l "ZGVm")) with
  | Ok (Some t2) => Ok (Some (s2l "abc" ++ t2))
  | r => r
  end.
Proof.
  apply from_db_value_concat; reflexivity.
Defined.

(** Whatever from_db_value returns is a sequence of Unicode scalar values
    whose UTF-8 encoding is exactly the decoded bytes: the strict decoder
    accepts canonical UTF-8 only. *)
Theorem from_db_value_canonical : forall s t,
  Base64TextField_from_db_value (Some s) = Ok (Some t) ->
  forallb valid_scalar t = true /\ b64decode s = Ok (utf8_encode t).
Proof.
  intros s t H. cbn [Base64TextField_from_db_value] in H.
  destruct (b64decode s) as [bs|e] eqn:E; cbn [bind] in H; [|discriminate].
  destruct (utf8_decode bs) as [t'|e] eqn:E2; cbn [bind] in H; [|discriminate].
  injection H as <-.
  assert (Hb : forallb is_byte bs = true).
  { unfold b64decode, a2b_base64 in E. destruct (forallb _ s); [|discriminate].
    exact (a2b_loop_bytes _ (mk_a2b 0 0 0 []) _ eq_refl E). }
  destruct (utf8_decode_canonical (List.length bs) bs t' ltac:(lia) Hb E2) as [V Enc].
  split; [exact V | rewrite Enc; reflexivity].
Qed.

Lemma from_db_value_canonical_witness :
  forallb valid_scalar [104; 233; 108; 108; 111] = true /\
  b64decode (s2l "aMOpbGxv") = Ok (utf8_encode [104; 233; 108; 108; 111]).
Proof.
  apply from_db_value_canonical. reflexivity.
Defined.

(** ** Which keyword arguments reach the field *)

Lemma in_firstn : forall {A} n (l : list A) x, In x (firstn n l) -> In x l.
Proof.
  intros A n l x H. rewrite <- (firstn_skipn n l). apply in_or_app. left. exact H.
Qed.

Lemma bind_pos_other : forall ps args kw d k,
  bind_pos ps args kw = Ok d -> ~ In k (firstn (List.length args) ps) ->
  kw_get k d = kw_get k kw.
Proof.
  intros ps args. revert ps. induction args as [|a args IH]; intros ps kw d k H Hk.
  - destruct ps; cbn in H; injection H as <-; reflexivity.
  - destruct ps as [|p ps]; cbn in H; [discriminate|].
    destruct (kw_get p kw); [discriminate|].
    cbn [List.length firstn In] in Hk.
    rewrite (IH _ _ _ _ H) by tauto. apply kw_get_set_other. intros ->. tauto.
Qed.

Lemma kw_get_setdefault_other : forall k k' v kw, k <> k' ->
  kw_get k (kw_setdefault k' v kw) = kw_get k kw.
Proof.
  intros k k' v kw H. unfold kw_setdefault.
  destruct (kw_get k' kw); [reflexivity | apply kw_get_set_other; exact H].
Qed.

Lemma kw_get_setdefault_same : forall k v kw,
  kw_get k (kw_setdefault k v kw) = Some (match kw_get k kw with Some v' => v' | None => v end).
Proof.
  intros k v kw. unfold kw_setdefault.
  destruct (kw_get k kw) eqn:E; [exact E | apply kw_get_set_same].
Qed.

Lemma CharField_init_inv : forall dv args kw f,
  CharField_init dv args kw = Ok f ->
  exists d, bind_pos Field_params args kw = Ok d /\
    f_max_length f = kw_get_or "max_length" VNone d /\
    f_blank f = truthy (kw_get_or "blank" (VBool false) d) /\
    f_null f = truthy (kw_get_or "null" (VBool false) d) /\
    f_choices f = match kw_get "choices" d with Some (VChoices l) => l | _ => [] end /\
    (kw_get "validators" d = None ->
     f_validators f = dv ++ [MaxLengthValidator (as_int (kw_get_or "max_length" VNone d))]).
Proof.
  intros dv args kw f H. unfold CharField_init, Field_init in H.
  destruct (bind_pos Field_params args kw) as [d|e] eqn:Ed; cbn [bind] in H; [|discriminate].
  destruct (forallb _ d); [|discriminate].
  exists d. split; [reflexivity|].
  destruct (kw_get "validators" d) as [[]|] eqn:Ev; cbn [bind] in H; try discriminate;
    injection H as <-; cbn;
    (split; [reflexivity | split; [reflexivity | split; [reflexivity | split; [reflexivity|]]]]);
    intros Hn; try discriminate; rewrite app_nil_r; reflexivity.
Qed.

Definition kw_choices (kw : kwargs) : list (pystr * pystr) :=
  match kw_get "choices" kw with Some (VChoices l) => l | _ => [] end.

(** What a [UriField] keeps of the caller's keyword arguments. *)
Lemma UriField_init_facts : forall args kw f,
  UriField_init args kw = Ok f ->
  f_blank f = truthy (kw_get_or "blank" (VBool false) kw) /\
  f_null f = truthy (kw_get_or "null" (VBool false) kw) /\
  f_choices f = kw_choices kw /\
  (kw_get "validators" kw = None ->
   f_validators f = [URLValidator; MaxLengthValidator (Some 255)]).
Proof.
  intros args kw f H. unfold UriField_init, URLField_init in H.
  destruct (bind_pos _ args _) as [d0|e] eqn:E0; cbn [bind] in H; [|discriminate].
  apply CharField_init_inv in H as (d & Ed & _ & Hb & Hn & Hc & Hv).
  assert (Hk : forall k, k <> "verbose_name"%string -> k <> "name"%string ->
                 k <> "max_length"%string -> kw_get k d = kw_get k kw).
  { intros k H1 H2 H3.
    rewrite (bind_pos_other _ _ _ _ k Ed) by (cbn; intuition congruence).
    rewrite kw_get_setdefault_other, !kw_get_del_other by assumption.
    rewrite (bind_pos_other _ _ _ _ k E0).
    - apply kw_get_set_other. exact H3.
    - intros Hin. apply in_firstn in Hin. cbn in Hin. intuition congruence. }
  assert (Hm : kw_get "max_length" d = Some (VInt 255)).
  { rewrite (bind_pos_other _ _ _ _ _ Ed) by (cbn; intuition discriminate).
    rewrite kw_get_setdefault_same, !kw_get_del_other by discriminate.
    rewrite (bind_pos_other _ _ _ _ _ E0).
    - rewrite kw_get_set_same. reflexivity.
    - intros Hin. apply in_firstn in Hin. cbn in Hin. intuition discriminate. }
  unfold kw_get_or, kw_choices in *.
  rewrite !Hk in Hb, Hn, Hc, Hv by discriminate.
  split; [exact Hb | split; [exact Hn | split; [exact Hc|]]].
  intros Hn'. rewrite Hv by exact Hn'. rewrite Hm. reflexivity.
Qed.











(** A [UriField] (no extra validators) rejects every non-empty value whose
    scheme, the part before the first [://] in lower case, is not http,
    https, ftp or ftps, such as the [urn:ietf:rfc:3986] system URI of
    Identifier's comments: [clean] raises [ValidationError]. *)
Theorem UriField_rejects_other_schemes : forall url_rest_ok args kw f v,
  UriField_init args kw = Ok f -> kw_get "validators" kw = None -> v <> [] ->
  existsb (pystr_eqb (ascii_lower (split_scheme v))) url_schemes = false ->
  clean url_rest_ok f (Some v) = Raise ValidationError.
Proof.
  intros R args kw f v Hf Hv Hne Hs.
  destruct (UriField_init_facts _ _ _ Hf) as (_ & _ & _ & Hvf). specialize (Hvf Hv).
  apply clean_raises_validation; [exact Hne | |].
  - rewrite Hvf. cbn [In]. intros [H|[H|[]]]; discriminate.
  - exists URLValidator, [MaxLengthValidator (Some 255)]. split; [exact Hvf|].
    cbn [run_validator]. unfold URLValidator_call. rewrite Hs. reflexivity.
Qed.

Lemma UriField_rejects_other_schemes_witness :
  exists f, Identifier_system = Ok f /\
    clean (fun _ => true) f (Some (s2l "urn:ietf:rfc:3986")) = Raise ValidationError.
Proof.
  eexists. split; [reflexivity|].
  apply (UriField_rejects_other_schemes (fun _ => true) [] [("null"%string, VBool false)]);
    reflexivity || discriminate.
Defined.

(** ** ReferenceField options *)

Lemma bind_ok : forall {A B} (m : result A) (k : A -> result B) r,
  bind m k = Ok r -> exists a, m = Ok a /\ k a = Ok r.
Proof. intros A B [a|e] k r H; cbn in H; [eauto | discriminate]. Qed.

Lemma bind_pos_nil : forall ps kw, bind_pos ps [] kw = Ok kw.
Proof. intros [|p ps] kw; reflexivity. Qed.


Lemma kw_get_filter_params : forall ps k kw,
  kw_get k (filter (fun '(k', _) => negb (in_params ps k')) kw) =
  if in_params ps k then None else kw_get k kw.
Proof.
  intros ps k kw. induction kw as [|[k' v] kw IH]; cbn.
  - destruct (in_params ps k); reflexivity.
  - destruct (String.eqb_spec k k') as [<-|Hne].
    + destruct (in_params ps k) eqn:E; cbn; [exact IH|].
      rewrite String.eqb_refl. reflexivity.
    + destruct (in_params ps k'); cbn; [exact IH|].
      rewrite (proj2 (String.eqb_neq k k') Hne). exact IH.
Qed.

Lemma Field_init_null : forall dv kw f, Field_init dv [] kw = Ok f ->
  f_null f = truthy (kw_get_or "null" (VBool false) kw).
Proof.
  intros dv kw f H. unfold Field_init in H.
  rewrite bind_pos_nil in H. cbn [bind] in H.
  destruct (forallb _ kw); [|discriminate].
  destruct (kw_get "validators" kw) as [[]|]; cbn [bind] in H; try discriminate;
    injection H as <-; reflexivity.
Qed.

(** [ReferenceField(to, on_delete=..., **kwargs)] passes [on_delete],
    [related_name] and [null] on to the foreign key and keeps [to] as the
    field's [referred_object]. *)
Theorem ReferenceField_passes_options : forall to od kw fk,
  kw_get "to" kw = None -> kw_get "on_delete" kw = Some od ->
  ReferenceField_init [to] kw = Ok fk ->
  fk_on_delete fk = od /\
  fk_related_name fk = kw_get_or "related_name" VNone kw /\
  f_null (fk_field fk) = truthy (kw_get_or "null" (VBool false) kw) /\
  In ("referred_object"%string, to) (f_attrs (fk_field fk)).
Proof.
  intros to od kw fk Hto Hod H. unfold ReferenceField_init in H.
  cbn [firstn skipn bind_pos] in H. rewrite Hto in H. cbn [bind] in H.
  rewrite kw_get_set_same, kw_get_set_other, Hod in H by discriminate.
  apply bind_ok in H as (fk0 & E & H). injection H as <-.
  unfold ForeignKey_init in E. rewrite bind_pos_nil in E. cbn [bind] in E.
  rewrite kw_get_set_other, kw_get_set_same, kw_get_set_same in E by discriminate.
  apply bind_ok in E as (f0 & Ef & E). injection E as <-.
  cbn [fk_on_delete fk_related_name fk_field add_attrs f_null f_attrs].
  assert (Hk : forall k, k <> "to"%string -> k <> "on_delete"%string ->
     kw_get k (kw_set "on_delete" od
       (kw_set "to" (VStr (s2l "Reference"))
          (kw_del "on_delete" (kw_del "to" (kw_set "to" to kw)))))
     = kw_get k kw).
  { intros k H1 H2. rewrite !kw_get_set_other, !kw_get_del_other, kw_get_set_other by assumption.
    reflexivity. }
  split; [reflexivity|]. split.
  { unfold kw_get_or. rewrite Hk by discriminate. reflexivity. }
  split; [|left; reflexivity].
  rewrite (Field_init_null _ _ _ Ef). unfold kw_get_or.
  rewrite kw_get_setdefault_other, kw_get_set_other by discriminate.
  rewrite kw_get_filter_params. cbn [in_params existsb ForeignKey_params String.eqb].
  rewrite Hk by discriminate. reflexivity.
Qed.

Lemma ReferenceField_passes_options_witness :
  exists fk, Identifier_assigner = Ok fk /\
    fk_on_delete fk = VOnDelete SET_NULL /\
    fk_related_name fk = VStr (s2l "asignee") /\
    f_null (fk_field fk) = true /\
    In ("referred_object"%string, VStr (s2l "Organisation")) (f_attrs (fk_field fk)).
Proof.
  eexists. split; [reflexivity|].
  apply (ReferenceField_passes_options _ _
           [("null"%string, VBool true); ("on_delete"%string, VOnDelete SET_NULL);
            ("related_name"%string, VStr (s2l "asignee"))]); reflexivity.
Defined.



(** ** Django's converter call *)

(** Called the way Django's SQL compiler calls a field's converter,
    with the value, the expression and the connection (and, in Django 1.x,
    the context), [Base64TextField.from_db_value] raises [TypeError] for
    every value: as a [staticmethod] it takes the single parameter [value]. *)
Theorem from_db_value_converter_TypeError : forall value expression connection,
  apply_converter value expression connection = Raise TypeError /\
  forall context, from_db_value_call [value; expression; connection; context] = Raise TypeError.
Proof.
  intros value expression connection. split; [|intros context]; reflexivity.
Qed.

(** ** The registrations of admin.py *)

Lemma admin_register_grows : forall m a reg reg',
  admin_register m a reg = Ok reg' ->
  In m (map fst reg') /\ forall x, In x (map fst reg) -> In x (map fst reg').
Proof.
  intros m a reg reg' H. unfold admin_register in H.
  destruct (is_abstract m); [discriminate|].
  destruct (existsb _ reg); [discriminate|]. injection H as <-.
  rewrite map_app. split; [apply in_or_app; right; left; reflexivity
                          | intros x Hx; apply in_or_app; left; exact Hx].
Qed.

Lemma admin_register_fresh : forall m reg,
  is_abstract m = false -> ~ In m (map fst reg) ->
  admin_register m None reg = Ok (reg ++ [(m, default_ModelAdmin)]).
Proof.
  intros m reg Ha Hn. unfold admin_register. rewrite Ha.
  destruct (existsb _ reg) eqn:E; [|reflexivity].
  exfalso. apply Hn. apply existsb_exists in E as ([m' a] & Hin & Heq).
  apply String.eqb_eq in Heq. subst m'. exact (in_map fst _ _ Hin).
Qed.

Lemma admin_module_Resource_taken : forall reg,
  In "Resource"%string (map fst reg) -> admin_module reg = Raise AlreadyRegistered.
Proof.
  intros reg H. apply in_map_iff in H as ([m a] & Hm & Hin). cbn in Hm. subst m.
  assert (Ht : existsb (fun '(m', _) => String.eqb "Resource" m') reg = true)
    by (apply existsb_exists; exists ("Resource"%string, a); split; [exact Hin | reflexivity]).
  unfold admin_module, admin_register at 1. rewrite Ht. reflexivity.
Qed.

Ltac admin_step H :=
  let Hr := fresh "Hr" in
  apply bind_ok in H as (? & Hr & H); apply admin_register_grows in Hr.

(** Running the body of admin.py a second time, on the registry it built,
    fails: [admin.site.register(Resource)] raises [AlreadyRegistered]. *)
Theorem admin_module_twice : forall reg reg',
  admin_module reg = Ok reg' -> admin_module reg' = Raise AlreadyRegistered.
Proof.
  intros reg reg' H. unfold admin_module in H.
  do 9 admin_step H. apply admin_register_grows in H.
  apply admin_module_Resource_taken.
  repeat match goal with Hg : _ /\ (forall x, _ -> _) |- _ => destruct Hg as [? Hg] end.
  auto 12.
Qed.

Lemma admin_module_twice_witness :
  exists reg', admin_module [] = Ok reg' /\ admin_module reg' = Raise AlreadyRegistered.
Proof.
  eexists. split; [reflexivity|]. apply (admin_module_twice []). reflexivity.
Defined.

(** On a registry that holds none of the ten models, admin.py appends
    them in the order of its [register] calls, each with the default
    [ModelAdmin], and keeps the earlier registrations. *)
Theorem admin_module_fresh : forall reg,
  (forall m, In m ["Resource"; "DomainResource"; "Coding"; "Period";
                   "StructureDefinition"; "Identifier"; "ValueSet";
                   "ContactDetail"; "ContactPoint"; "Extension"]%string ->
             ~ In m (map fst reg)) ->
  admin_module reg =
  Ok (reg ++ map (fun m => (m, default_ModelAdmin))
                 ["Resource"; "DomainResource"; "Coding"; "Period";
                  "StructureDefinition"; "Identifier"; "ValueSet";
                  "ContactDetail"; "ContactPoint"; "Extension"]%string).
Proof.
  intros reg Hf. unfold admin_module.
  repeat (rewrite admin_register_fresh;
    [cbn [bind]; rewrite <- ?app_assoc; cbn [app] | reflexivity
    | first [ apply Hf; cbn; tauto
            | rewrite map_app, in_app_iff; intros [Hin | Hin];
              [ revert Hin; apply Hf; cbn; tauto
              | cbn [map fst In] in Hin; intuition discriminate ] ] ]).
  reflexivity.
Qed.

Lemma admin_module_fresh_witness :
  admin_module [("Patient"%string, default_ModelAdmin)] =
  Ok ([("Patient"%string, default_ModelAdmin)] ++
      map (fun m => (m, default_ModelAdmin))
          ["Resource"; "DomainResource"; "Coding"; "Period";
           "StructureDefinition"; "Identifier"; "ValueSet";
           "ContactDetail"; "ContactPoint"; "Extension"]%string).
Proof.
  apply admin_module_fresh. intros m Hm. cbn.
  repeat destruct Hm as [<- | Hm]; try (intros [H | []]; discriminate H). destruct Hm.
Defined.

(** ** Attachment.__str__ *)


